(** * iot: a multi-threaded I/O benchmark (src/iot.c)

  Shallow embedding of the worker engine of [iot.c]: the position
  generators [linpos] and [randpos], the transfer functions [wwriter]
  and [wreader], the progress counter [incc], the running-worker
  counter [decnr], the thread body [worker], the report function [pst]
  and the parts of [main] that set the engine up and shut it down.

  C [unsigned] values are integers of [Z] reduced modulo [2^32] where
  the C code can wrap.  Calls into the operating system ([open],
  [pread], [pwrite], the asynchronous [term] flag) are answered by an
  explicit environment.  The [double] fields ([stime], the rates [r] of
  [pst]) are not modelled: no control flow depends on them. *)

From Stdlib Require Import ZArith List Bool Lia String Ascii.
From stdpp Require Import base list.
Import ListNotations.
Local Open Scope Z_scope.

(** ** Machine integers *)

Module Mach.

Definition UINT_MOD : Z := 2 ^ 32.

(** Conversion to [unsigned]: reduction modulo [2^32]. *)
Definition u32 (z : Z) : Z := z mod UINT_MOD.

(** Conversion to [int] (two's complement, as gcc does it). *)
Definition to_int (z : Z) : Z :=
  let r := z mod UINT_MOD in
  if r <? 2 ^ 31 then r else r - UINT_MOD.

(** Conversion to [unsigned long long]. *)
Definition u64 (z : Z) : Z := z mod 2 ^ 64.

Definition is_u32 (z : Z) : Prop := 0 <= z < UINT_MOD.

End Mach.
Import Mach.

(** ** Operation classes: the macros [MFrnd], [MFwrt], [LinRd] ... *)

Definition MFrnd : Z := 1.
Definition MFwrt : Z := 2.
Definition LinRd : Z := 0.
Definition RndRd : Z := MFrnd.
Definition LinWr : Z := MFwrt.
Definition RndWr : Z := Z.lor MFrnd MFwrt.

(** ** [struct state] *)

(** The two function pointers of [struct state]; [calloc] leaves them
  null until [worker] assigns them. *)
Inductive workfn_t := wf_null | wf_wwriter | wf_wreader.
Inductive posfn_t := pf_null | pf_randpos | pf_linpos.

Record state := mkState {
  fd : Z;             (* int fd *)
  ioc : Z;            (* unsigned ioc: I/O count *)
  workfn : workfn_t;
  posfn : posfn_t;
  opi : Z;            (* unsigned opi: operation index *)
  i : Z;              (* unsigned i: curidx *)
  bn : Z              (* unsigned bn: current block number for linear i/o *)
}.

Definition set_fd (v : Z) (s : state) : state :=
  mkState v (ioc s) (workfn s) (posfn s) (opi s) (i s) (bn s).
Definition set_ioc (v : Z) (s : state) : state :=
  mkState (fd s) v (workfn s) (posfn s) (opi s) (i s) (bn s).
Definition set_fns (w : workfn_t) (p : posfn_t) (s : state) : state :=
  mkState (fd s) (ioc s) w p (opi s) (i s) (bn s).
Definition set_bn (v : Z) (s : state) : state :=
  mkState (fd s) (ioc s) (workfn s) (posfn s) (opi s) (i s) v.

(** One element of the array [calloc] returns: every field zero. *)
Definition state_zero : state := mkState 0 0 wf_null pf_null 0 0 0.

(** ** The random source of the C library

  [srand48] and [lrand48] are the linear congruential generator that
  POSIX fixes: [X' = (a * X + c) mod 2^48] with [a = 0x5DEECE66D] and
  [c = 0xB]; [lrand48] returns the 31 high-order bits of [X'];
  [srand48 seed] sets [X] to the low 32 bits of [seed] followed by
  [0x330E]. *)

Module Rand48.

Definition a : Z := 0x5DEECE66D.
Definition c : Z := 0xB.

Definition srand48 (seedval : Z) : Z :=
  Z.lor (Z.shiftl (seedval mod 2 ^ 32) 16) 0x330E.

Definition next (X : Z) : Z := (a * X + c) mod 2 ^ 48.

(** [lrand48 X] is the value returned and the new generator state. *)
Definition lrand48 (X : Z) : Z * Z :=
  let X' := next X in (Z.shiftr X' 17, X').

End Rand48.

(** ** Events

  What a thread does to the outside world, in program order. *)

Inductive gvar := Gtioc | Grunning.

Inductive event :=
| EvLock                            (* pthread_mutex_lock(&rnmtx) *)
| EvUnlock                          (* pthread_mutex_unlock(&rnmtx) *)
| EvSignal                          (* pthread_cond_signal(&rncond) *)
| EvBroadcast                       (* pthread_cond_broadcast(&rncond) *)
| EvUpdate (x : gvar)               (* read-modify-write of a shared counter *)
| EvIO (wr : bool) (blk ret : Z)    (* pwrite/pread at block blk returned ret *)
| EvPerror (op : Z)                 (* perror(ion[op]) *)
| EvEdie                            (* the fprintf of edie *)
| EvSrand48 (seedval : Z)           (* srand48(seedval) *)
| EvExit (status : Z).              (* exit(status) *)

(** ** Shared mutable variables: [tioc], [running] and the state of the
  random source. *)

Record world := mkWorld {
  tioc : Z;           (* static unsigned tioc *)
  running : Z;        (* static volatile unsigned running *)
  rng : Z             (* the 48-bit state behind lrand48 *)
}.

Definition set_tioc (v : Z) (w : world) : world := mkWorld v (running w) (rng w).
Definition set_running (v : Z) (w : world) : world := mkWorld (tioc w) v (rng w).
Definition set_rng (v : Z) (w : world) : world := mkWorld (tioc w) (running w) v.

(** ** The engine, for a fixed configuration

  [bs], [bc] and [bm] are the globals of the same names; [main] sets
  them before the first thread starts and nothing writes them later. *)

Section Engine.

Variable bs : Z.    (* static unsigned bs: block size *)
Variable bc : Z.    (* static unsigned bc: block count *)
Variable bm : Z.    (* static unsigned bm: blocks to do *)
Variable oflags : Z. (* static int oflags: open flags *)

(** [randpos]: [n = lrand48(); return n % bc;].  The remainder by a
    zero [bc] is undefined in C (a SIGFPE on the usual targets): no
    value is returned then. *)
Definition randpos (w : world) (s : state) : option Z * world * state :=
  let (r, X') := Rand48.lrand48 (rng w) in
  let n := u32 r in
  ((if bc =? 0 then None else Some (n mod bc)), set_rng X' w, s).

(** [linpos]: [if (s->bn >= bc) s->bn = 0; return s->bn++;] *)
Definition linpos (s : state) : Z * state :=
  let s1 := if bc <=? bn s then set_bn 0 s else s in
  (bn s1, set_bn (u32 (bn s1 + 1)) s1).

(** [n] consecutive calls of [linpos]: the values returned, in order,
    and the state left behind. *)
Fixpoint linpos_calls (n : nat) (s : state) : list Z * state :=
  match n with
  | O => ([], s)
  | S n' =>
      let (b, s1) := linpos s in
      let (bs', s2) := linpos_calls n' s1 in
      (b :: bs', s2)
  end.

(** [n] consecutive calls of [randpos]. *)
Fixpoint randpos_calls (n : nat) (w : world) (s : state)
  : list (option Z) * world * state :=
  match n with
  | O => ([], w, s)
  | S n' =>
      let '(b, w1, s1) := randpos w s in
      let '(bs', w2, s2) := randpos_calls n' w1 s1 in
      (b :: bs', w2, s2)
  end.

(** What the operating system answers to one worker thread. *)
Record env := mkEnv {
  sys_open : Z -> Z;            (* open(fn, flags): the descriptor or -1 *)
  sys_pwrite : nat -> Z -> Z;   (* k-th transfer, at a byte offset: the ssize_t returned *)
  sys_pread : nat -> Z -> Z;
  term_at : nat -> Z            (* the value of [term] read at the k-th poll *)
}.

Definition O_RDONLY : Z := 0.
Definition O_WRONLY : Z := 1.
Definition O_RDWR : Z := 2.

(** [wwriter]: [return pwrite(s->fd, s->buf, bs, (off_t)b * bs);] with
    the [ssize_t] converted to the [int] the function returns. *)
Definition wwriter (e : env) (k : nat) (s : state) (b : Z) : Z :=
  to_int (sys_pwrite e k (b * bs)).

(** [wreader]: [return pread(s->fd, s->buf, bs, (off_t)b * bs);] *)
Definition wreader (e : env) (k : nat) (s : state) (b : Z) : Z :=
  to_int (sys_pread e k (b * bs)).

(** [incc]: [if (!(++tioc % 1000)) pthread_cond_signal(&rncond);] *)
Definition incc (w : world) : world * list event :=
  let t := u32 (tioc w + 1) in
  let w' := set_tioc t w in
  if t mod 1000 =? 0 then (w', [EvUpdate Gtioc; EvSignal])
  else (w', [EvUpdate Gtioc]).

(** The two halves of [++tioc]: the load, and the store of the
    incremented value with the test that follows it. *)
Definition incc_load (w : world) : Z := tioc w.
Definition incc_store (v : Z) (w : world) : world * list event :=
  let t := u32 (v + 1) in
  let w' := set_tioc t w in
  if t mod 1000 =? 0 then (w', [EvUpdate Gtioc; EvSignal])
  else (w', [EvUpdate Gtioc]).

(** [decnr]: lock, [--running], unlock, broadcast. *)
Definition decnr (w : world) : world * list event :=
  (set_running (u32 (running w - 1)) w,
   [EvLock; EvUpdate Grunning; EvUnlock; EvBroadcast]).

(** [edie]: print the reason, then [exit(1)]. *)
Definition edie : list event := [EvEdie; EvExit 1].

(** The indirect calls [s->posfn(s)] and [s->workfn(s, b)]; a call
    through a null pointer gives no value. *)
Definition call_posfn (w : world) (s : state) : option Z * world * state :=
  match posfn s with
  | pf_null => (None, w, s)
  | pf_randpos => randpos w s
  | pf_linpos => let (b, s1) := linpos s in (Some b, w, s1)
  end.

Definition call_workfn (e : env) (k : nat) (s : state) (b : Z) : option (bool * Z) :=
  match workfn s with
  | wf_null => None
  | wf_wwriter => Some (true, wwriter e k s b)
  | wf_wreader => Some (false, wreader e k s b)
  end.

(** Why the [for(;;)] loop of [worker] was left. *)
Inductive stop :=
| StopTerm        (* if (term) break; *)
| StopIOError     (* workfn returned a negative value *)
| StopLimit       (* if (bm && s->ioc >= bm) break; *)
| StopFault.      (* undefined behaviour: n % 0 or a null call *)

Inductive outcome :=
| StillLooping (w : world) (s : state) (tr : list event)
| LoopExit (why : stop) (w : world) (s : state) (tr : list event).

(** The [for(;;)] loop of [worker]; [k] counts the iterations begun so
    far and [tr] is what the thread has done so far. *)
Fixpoint worker_loop (e : env) (fuel : nat) (k : nat)
    (w : world) (s : state) (tr : list event) : outcome :=
  match fuel with
  | O => StillLooping w s tr
  | S fuel' =>
      if negb (term_at e k =? 0) then LoopExit StopTerm w s tr else
      match call_posfn w s with
      | (None, w1, s1) => LoopExit StopFault w1 s1 tr
      | (Some b, w1, s1) =>
          match call_workfn e k s1 b with
          | None => LoopExit StopFault w1 s1 tr
          | Some (wr, r) =>
              let tr1 := tr ++ [EvIO wr b r] in
              if r <? 0 then
                LoopExit StopIOError w1 s1 (tr1 ++ [EvPerror (opi s1)])
              else
                let s2 := set_ioc (u32 (ioc s1 + 1)) s1 in
                let (w2, ev) := incc w1 in
                let tr2 := tr1 ++ ev in
                if negb (bm =? 0) && (bm <=? ioc s2) then
                  LoopExit StopLimit w2 s2 tr2
                else worker_loop e fuel' (S k) w2 s2 tr2
          end
      end
  end.

(** How far a thread got. *)
Inductive thread_end :=
| ThreadReturned            (* return 0 *)
| ProcessExit (status : Z)  (* exit(status) was called *)
| ThreadLooping             (* still in the loop when the fuel ran out *)
| ThreadFault.

(** [worker]: choose the two functions from [opi], open the target,
    loop, and count the thread out with [decnr]. *)
Definition worker (e : env) (fuel : nat) (w : world) (s : state)
  : thread_end * world * state * list event :=
  let s := set_fns (if Z.land (opi s) MFwrt =? 0 then wf_wreader else wf_wwriter)
                   (if Z.land (opi s) MFrnd =? 0 then pf_linpos else pf_randpos) s in
  let s := set_fd (sys_open e (Z.lor (if Z.land (opi s) MFwrt =? 0
                                      then O_RDONLY else O_WRONLY) oflags)) s in
  if fd s <? 0 then
    let (w1, ev) := decnr w in
    (ProcessExit 1, w1, s, ev ++ edie)
  else
    match worker_loop e fuel 0 w s [] with
    | StillLooping w1 s1 tr => (ThreadLooping, w1, s1, tr)
    | LoopExit StopFault w1 s1 tr => (ThreadFault, w1, s1, tr)
    | LoopExit _ w1 s1 tr =>
        let (w2, ev) := decnr w1 in
        (ThreadReturned, w2, s1, tr ++ ev)
    end.

End Engine.

(** ** The report: [pst] *)

(** The per-class counts [c] that the loop of [pst] accumulates over
    [states[0 .. ntt-1]]: [c[states[i].opi] += states[i].ioc].  (An [opi]
    of 4 or more would index outside [c]; [main] never stores one.) *)
Definition pst_counts (ntt : Z) (states : list state) : list Z :=
  fold_left
    (fun c s => alter (fun v => u32 (v + ioc s)) (Z.to_nat (opi s)) c)
    (take (Z.to_nat ntt) states)
    [0; 0; 0; 0].

(** [pst f]: the text written to [f].  The [fprintf] that would print
    the counts and rates is commented out in the source, so the counts
    are computed and dropped. *)
Definition pst (ntt : Z) (states : list state) : string :=
  let c := pst_counts ntt states in
  EmptyString.

Definition CR : string := String (ascii_of_nat 13) EmptyString.
Definition NL : string := String (ascii_of_nat 10) EmptyString.

(** The two standard streams, as the text written so far. *)
Record streams := mkStreams { sout : string; serr : string }.

(** One turn of [while(running) { pthread_cond_wait(..); putc('\r', stderr);
    pst(stderr); }], and [n] turns of it. *)
Definition report_once (ntt : Z) (states : list state) (io : streams) : streams :=
  mkStreams (sout io) (String.append (String.append (serr io) CR) (pst ntt states)).

Fixpoint report_loop (n : nat) (ntt : Z) (states : list state) (io : streams) : streams :=
  match n with
  | O => io
  | S n' => report_loop n' ntt states (report_once ntt states io)
  end.

(** The end of [main]: [putc('\r', stderr); pst(stdout); putc('\n', stdout);] *)
Definition main_finish (ntt : Z) (states : list state) (io : streams) : streams :=
  let io1 := mkStreams (sout io) (String.append (serr io) CR) in
  let io2 := mkStreams (String.append (sout io1) (pst ntt states)) (serr io1) in
  mkStreams (String.append (sout io2) NL) (serr io2).

(** ** Start-up: the option loop and the set-up in [main] *)

(** [atoi] of the C library is [(int) strtol(s, NULL, 10)]: optional
    white space, an optional sign, then decimal digits up to the first
    other character; a value outside the range of [long] becomes
    [LONG_MAX] or [LONG_MIN], and the conversion to [int] keeps the low
    32 bits. *)
Definition LONG_MAX : Z := 2 ^ 63 - 1.
Definition LONG_MIN : Z := - 2 ^ 63.

Definition is_space (c : ascii) : bool :=
  let n := Z.of_nat (nat_of_ascii c) in
  (n =? 32) || ((9 <=? n) && (n <=? 13)).

Definition digit_of (c : ascii) : option Z :=
  let n := Z.of_nat (nat_of_ascii c) in
  if (48 <=? n) && (n <=? 57) then Some (n - 48) else None.

Fixpoint atoi_digits (s : string) (acc : Z) : Z :=
  match s with
  | String c r =>
      match digit_of c with
      | Some d => atoi_digits r (10 * acc + d)
      | None => acc
      end
  | EmptyString => acc
  end.

Definition atoi_signed (s : string) : Z :=
  match s with
  | String "-"%char r => - atoi_digits r 0
  | String "+"%char r => atoi_digits r 0
  | _ => atoi_digits s 0
  end.

Fixpoint strtol_value (s : string) : Z :=
  match s with
  | String c r => if is_space c then strtol_value r else atoi_signed s
  | EmptyString => 0
  end.

Definition strtol (s : string) : Z :=
  Z.max LONG_MIN (Z.min LONG_MAX (strtol_value s)).

Definition atoi (s : string) : Z := to_int (strtol s).

(** The globals that the option loop writes, with their initial
    values: [bs = 8192], everything else zero. *)
Record globals := mkGlobals {
  g_oflags : Z;
  g_bs : Z;
  g_bc : Z;
  g_bm : Z;
  g_nt : list Z;      (* static unsigned nt[4] *)
  g_tm : Z            (* unsigned tm, local to main *)
}.

Definition globals_init : globals := mkGlobals 0 8192 0 0 [0; 0; 0; 0] 0.

Definition O_DIRECT : Z := 0x4000.
Definition O_SYNC : Z := 0x101000.

(** What [getopt] returns for ["r::R::w::W::dsb:n:i:t:h"], with [optarg]. *)
Inductive opt :=
| Opt_r (optarg : option string)
| Opt_R (optarg : option string)
| Opt_w (optarg : option string)
| Opt_W (optarg : option string)
| Opt_d
| Opt_s
| Opt_b (optarg : string)
| Opt_n (optarg : string)
| Opt_i (optarg : string)
| Opt_t (optarg : string)
| Opt_h
| Opt_other.

(** [optarg ? atoi(optarg) : 1], stored into an [unsigned]. *)
Definition thread_count (optarg : option string) : Z :=
  u32 (match optarg with Some a => atoi a | None => 1 end).

Definition set_nt (j : Z) (v : Z) (g : globals) : globals :=
  mkGlobals (g_oflags g) (g_bs g) (g_bc g) (g_bm g)
            (<[Z.to_nat j := v]> (g_nt g)) (g_tm g).

Definition nt_at (nt : list Z) (j : Z) : Z := default 0 (nt !! Z.to_nat j).

(** The [switch] inside the option loop, for one option: the new
    globals, or the status the process ends with. *)
Definition parse_opt (o : opt) (g : globals) : globals + Z :=
  match o with
  | Opt_r a => inl (set_nt LinRd (thread_count a) g)
  | Opt_R a => inl (set_nt RndRd (thread_count a) g)
  | Opt_w a => inl (set_nt LinWr (thread_count a) g)
  | Opt_W a => inl (set_nt RndWr (thread_count a) g)
  | Opt_d => inl (mkGlobals (Z.lor (g_oflags g) O_DIRECT) (g_bs g) (g_bc g) (g_bm g) (g_nt g) (g_tm g))
  | Opt_s => inl (mkGlobals (Z.lor (g_oflags g) O_SYNC) (g_bs g) (g_bc g) (g_bm g) (g_nt g) (g_tm g))
  | Opt_b a => inl (mkGlobals (g_oflags g) (u32 (atoi a)) (g_bc g) (g_bm g) (g_nt g) (g_tm g))
  | Opt_n a => inl (mkGlobals (g_oflags g) (g_bs g) (u32 (atoi a)) (g_bm g) (g_nt g) (g_tm g))
  | Opt_i a => inl (mkGlobals (g_oflags g) (g_bs g) (g_bc g) (u32 (atoi a)) (g_nt g) (g_tm g))
  | Opt_t a => inl (mkGlobals (g_oflags g) (g_bs g) (g_bc g) (g_bm g) (g_nt g) (u32 (atoi a)))
  | Opt_h => inr 0
  | Opt_other => inr 1
  end.

Fixpoint parse_opts (os : list opt) (g : globals) : globals + Z :=
  match os with
  | [] => inl g
  | o :: os' =>
      match parse_opt o g with
      | inl g' => parse_opts os' g'
      | inr st => inr st
      end
  end.

(** What the operating system answers to [main]. *)
Record osenv := mkOsenv {
  os_open : Z -> Z;     (* open(fn, flags) *)
  os_st_size : Z;       (* st.st_size after fstat *)
  os_blksize64 : Z;     (* what ioctl(c, BLKGETSIZE64, &sz) leaves in sz *)
  os_tv_usec : Z;       (* the time of day, were it asked for *)
  os_pid : Z;           (* getpid(), were it asked for *)
  os_rng0 : Z;          (* state of the random source when main starts *)
  os_heap : nat -> state (* what the memory past the end of the array
                            [states] holds, element by element *)
}.

(** An environment whose memory past the array happens to be zero. *)
Definition mkOs (op : Z -> Z) (sz blk usec pid rng0 : Z) : osenv :=
  mkOsenv op sz blk usec pid rng0 (fun _ => state_zero).

(** [if (!bc) { ... bc = sz / bs; }]: the block count when [-n] did not
    give one.  [sz] is an [unsigned long long]; a zero [bs] makes the
    division undefined. *)
Definition derive_bc (o : osenv) (bs bc : Z) : option Z :=
  if bc =? 0 then
    let sz := if os_st_size o =? 0 then u64 (os_blksize64 o)
              else u64 (os_st_size o) in
    if bs =? 0 then None else Some (u32 (sz / bs))
  else Some bc.

(** The seed of [main]: [srand48(0xfeda432)] when a random class has
    threads.  The branch that would seed from the clock and the process
    id is under [#if 0]. *)
Definition SEED : Z := 0xfeda432.

Definition main_seed (o : osenv) (nt : list Z) : Z * list event :=
  if negb (nt_at nt RndRd =? 0) || negb (nt_at nt RndWr =? 0)
  then (Rand48.srand48 SEED, [EvSrand48 SEED])
  else (os_rng0 o, []).

(** The thread-creation loops: for [j < 4], for [i < nt[j]], the next
    element of [states] gets [opi = j] and [i = i].  [spawn] lists these
    elements in creation order as they are when they lie inside the
    zeroed array that [calloc(ntt, ...)] returned. *)
Definition spawn_class (j : Z) (n : Z) : list state :=
  map (fun i => mkState 0 0 wf_null pf_null j (Z.of_nat i) 0) (seq 0 (Z.to_nat n)).

Definition spawn (nt : list Z) : list state :=
  flat_map (fun j => spawn_class j (nt_at nt j)) [0; 1; 2; 3].

(** An element past the end of the array: the loop stores [opi] and [i]
    there too, over whatever the memory holds. *)
Definition past_array (h : state) (s : state) : state :=
  mkState (fd h) (ioc h) (workfn h) (posfn h) (opi s) (i s) (bn h).

(** The states the threads are started with: the array has [ntt]
    elements, and the [k]-th thread created gets the [k]-th element,
    inside the array or past it. *)
Fixpoint place_from (k : nat) (ntt : Z) (heap : nat -> state) (l : list state)
  : list state :=
  match l with
  | [] => []
  | s :: r =>
      (if Z.of_nat k <? ntt then s else past_array (heap k) s)
        :: place_from (S k) ntt heap r
  end.

Definition place (ntt : Z) (heap : nat -> state) (l : list state) : list state :=
  place_from 0 ntt heap l.

Inductive startup :=
| Started (g : globals) (ntt : Z) (w : world) (states : list state) (tr : list event)
| MainExit (status : Z) (tr : list event)
| MainFault.

(** [main] up to the point where every thread has been created;
    [args] are the arguments left after the options. *)
Definition main_start (os : list opt) (args : list string) (o : osenv) : startup :=
  match parse_opts os globals_init with
  | inr st => MainExit st []
  | inl g =>
      match args with
      | [fn] =>
          let ntt := u32 (nt_at (g_nt g) 0 + nt_at (g_nt g) 1
                          + nt_at (g_nt g) 2 + nt_at (g_nt g) 3) in
          let g := if ntt =? 0 then set_nt LinRd 1 g else g in
          let ntt := if ntt =? 0 then 1 else ntt in
          let c := os_open o (Z.lor (if u32 (nt_at (g_nt g) LinWr + nt_at (g_nt g) RndWr) =? 0
                                     then O_RDONLY else O_RDWR) (g_oflags g)) in
          if c <? 0 then MainExit 1 edie else
          match derive_bc o (g_bs g) (g_bc g) with
          | None => MainFault
          | Some bc' =>
              let g := mkGlobals (g_oflags g) (g_bs g) bc' (g_bm g) (g_nt g) (g_tm g) in
              let (X, tr) := main_seed o (g_nt g) in
              Started g ntt (mkWorld 0 ntt X)
                (place ntt (os_heap o) (spawn (g_nt g))) tr
          end
      | _ => MainExit 1 []
      end
  end.

(** ** Observations on runs *)

(** [guarded held tr]: every update of a shared counter in [tr] happens
    between a lock and the matching unlock of [rnmtx]; [held] tells
    whether the thread holds the mutex where [tr] begins. *)
Fixpoint guarded (held : bool) (tr : list event) : bool :=
  match tr with
  | [] => true
  | EvLock :: r => guarded true r
  | EvUnlock :: r => guarded false r
  | EvUpdate _ :: r => held && guarded held r
  | _ :: r => guarded held r
  end.

(** The number of transfers a thread issued. *)
Definition is_io (ev : event) : bool :=
  match ev with EvIO _ _ _ => true | _ => false end.

Fixpoint io_count (tr : list event) : nat :=
  match tr with
  | [] => O
  | ev :: r => if is_io ev then S (io_count r) else io_count r
  end.

(** Whether a text shows any decimal digit. *)
Fixpoint has_digit (s : string) : bool :=
  match s with
  | EmptyString => false
  | String c r => match digit_of c with Some _ => true | None => has_digit r end
  end.

(** The transfers of a trace that returned a non-negative value, and
    those that returned a negative one. *)
Fixpoint ok_ios (tr : list event) : nat :=
  match tr with
  | [] => O
  | EvIO _ _ r :: t => if r <? 0 then ok_ios t else S (ok_ios t)
  | _ :: t => ok_ios t
  end.

Fixpoint bad_ios (tr : list event) : nat :=
  match tr with
  | [] => O
  | EvIO _ _ r :: t => if r <? 0 then S (bad_ios t) else bad_ios t
  | _ :: t => bad_ios t
  end.

(** The generator of a thread can be called: it is [linpos], or it is
    [randpos] and the block count is not zero. *)
Definition posfn_ok (bc : Z) (s : state) : Prop :=
  posfn s = pf_linpos \/ (posfn s = pf_randpos /\ bc <> 0).

(** No transfer of this thread reports an error. *)
Definition no_io_error (e : env) : Prop :=
  forall k off, 0 <= to_int (sys_pwrite e k off) /\ 0 <= to_int (sys_pread e k off).

(** The stop flag is never seen set. *)
Definition never_term (e : env) : Prop := forall k, term_at e k = 0.

(** The flags [worker] passes to [open]. *)
Definition open_flags (oflags : Z) (s : state) : Z :=
  Z.lor (if Z.land (opi s) MFwrt =? 0 then O_RDONLY else O_WRONLY) oflags.

(** Sample environments: every call succeeds in full; every transfer
    is short (100 bytes); [open] fails. *)
Definition env_ok : env :=
  mkEnv (fun _ => 3) (fun _ _ => 8192) (fun _ _ => 8192) (fun _ => 0).
Definition env_short : env :=
  mkEnv (fun _ => 3) (fun _ _ => 100) (fun _ _ => 100) (fun _ => 0).
Definition env_noopen : env :=
  mkEnv (fun _ => -1) (fun _ _ => 8192) (fun _ _ => 8192) (fun _ => 0).


(** The world of the outcome of the loop. *)
Definition outcome_world (o : outcome) : world :=
  match o with StillLooping w _ _ => w | LoopExit _ w _ _ => w end.

(** The trace of the outcome of the loop. *)
Definition outcome_trace (o : outcome) : list event :=
  match o with StillLooping _ _ tr => tr | LoopExit _ _ _ tr => tr end.

(** The sum of a list of counters. *)
Definition total (l : list Z) : Z := fold_right Z.add 0 l.

(** The first [n] block numbers drawn by [randpos] from generator state
    [X] with block count [bc]. *)
Definition draws (bc : Z) (X : Z) (n : nat) : list (option Z) :=
  fst (fst (randpos_calls bc n (mkWorld 0 0 X) state_zero)).

(** ** The threads of a run and the counter [running]

    A thread is [Live] until it has called [decnr].  [worker] calls
    [decnr] on two paths: before [edie] when [open] fails, which ends
    the process, and after the loop. *)
Inductive phase := Live | Gone.

Record sys := mkSys {
  sh : world;
  threads : list phase;
  halted : bool           (* exit() has been called *)
}.

Inductive sys_step : sys -> sys -> Prop :=
| step_incc (sg : sys) (k : nat) :
    halted sg = false -> threads sg !! k = Some Live ->
    sys_step sg (mkSys (fst (incc (sh sg))) (threads sg) false)
| step_rand (sg : sys) (k : nat) :
    halted sg = false -> threads sg !! k = Some Live ->
    sys_step sg (mkSys (set_rng (snd (Rand48.lrand48 (rng (sh sg)))) (sh sg)) (threads sg) false)
| step_leave (sg : sys) (k : nat) :
    halted sg = false -> threads sg !! k = Some Live ->
    sys_step sg (mkSys (fst (decnr (sh sg))) (<[k := Gone]> (threads sg)) false)
| step_abort (sg : sys) (k : nat) :
    halted sg = false -> threads sg !! k = Some Live ->
    sys_step sg (mkSys (fst (decnr (sh sg))) (<[k := Gone]> (threads sg)) true).

Fixpoint live_count (ts : list phase) : nat :=
  match ts with
  | [] => O
  | Live :: r => S (live_count r)
  | Gone :: r => live_count r
  end.

(** [sg'] is reachable from [sg] in [n] steps, with the values of
    [running] seen on the way (the first one excluded). *)
Inductive sys_run : sys -> list Z -> sys -> Prop :=
| run_nil sg : sys_run sg [] sg
| run_cons sg sg1 sg2 vs :
    sys_step sg sg1 -> sys_run sg1 vs sg2 -> sys_run sg (running (sh sg1) :: vs) sg2.

(** [steps_down x vs]: starting from [x], each value of [vs] is the one
    before it or that one less 1. *)
Fixpoint steps_down (x : Z) (vs : list Z) : Prop :=
  match vs with
  | [] => True
  | v :: r => (v = x \/ v = x - 1) /\ steps_down v r
  end.

(** The number of threads the creation loops of [main] start. *)
Definition nt_sum (nt : list Z) : Z :=
  nt_at nt 0 + nt_at nt 1 + nt_at nt 2 + nt_at nt 3.

(** [running] counts the live threads. *)
Definition counts_live (sg : sys) : Prop :=
  running (sh sg) = Z.of_nat (live_count (threads sg))
  /\ Z.of_nat (live_count (threads sg)) < UINT_MOD.

(** The thread counts are four numbers, none negative. *)
Definition nt_wf (nt : list Z) : Prop :=
  length nt = 4%nat /\ Forall (fun v => 0 <= v) nt.

(** The number of calls of [srand48] in a trace. *)
Fixpoint seed_count (tr : list event) : nat :=
  match tr with
  | [] => O
  | EvSrand48 _ :: r => S (seed_count r)
  | _ :: r => seed_count r
  end.

(** ** Further observations on traces *)

(** The block numbers of the transfers of a trace, in order. *)
Fixpoint io_blocks (tr : list event) : list Z :=
  match tr with
  | [] => []
  | EvIO _ b _ :: r => b :: io_blocks r
  | _ :: r => io_blocks r
  end.

(** The number of [pthread_cond_signal] calls in a trace. *)
Fixpoint signal_count (tr : list event) : nat :=
  match tr with
  | [] => O
  | EvSignal :: r => S (signal_count r)
  | _ :: r => signal_count r
  end.

(** [guarded_running held tr]: every update of [running] in [tr] happens
    with [rnmtx] held. *)
Fixpoint guarded_running (held : bool) (tr : list event) : bool :=
  match tr with
  | [] => true
  | EvLock :: r => guarded_running true r
  | EvUnlock :: r => guarded_running false r
  | EvUpdate Grunning :: r => held && guarded_running held r
  | _ :: r => guarded_running held r
  end.

(** An event that takes no lock and does not touch [running]. *)
Definition ev_quiet (ev : event) : Prop :=
  match ev with
  | EvLock | EvUnlock | EvUpdate Grunning => False
  | _ => True
  end.

(** A transfer at a block below [bc]. *)
Definition ev_in_range (bc : Z) (ev : event) : Prop :=
  match ev with EvIO _ b _ => 0 <= b < bc | _ => True end.

(** A transfer in the direction [wr] ([true] for [pwrite]). *)
Definition ev_dir (wr : bool) (ev : event) : Prop :=
  match ev with EvIO wr' _ _ => wr' = wr | _ => True end.

(** The size [sz] that [main] divides by [bs]: [st_size], or what the
    ioctl stored when [st_size] is zero. *)
Definition target_size (o : osenv) : Z :=
  if os_st_size o =? 0 then u64 (os_blksize64 o) else u64 (os_st_size o).

(** The sum of the counters of the threads of class [j]. *)
Definition class_ioc (j : Z) (l : list state) : Z :=
  total (map ioc (List.filter (fun s => opi s =? j) l)).

(** The options that set a thread count. *)
Definition is_class_opt (o : opt) : bool :=
  match o with
  | Opt_r _ | Opt_R _ | Opt_w _ | Opt_W _ => true
  | _ => false
  end.

(** The options that end the option loop: [-h] and an unknown one. *)
Definition is_exit_opt (o : opt) : bool :=
  match o with
  | Opt_h | Opt_other => true
  | _ => false
  end.

(** [n] carriage returns. *)
Fixpoint crs (n : nat) : string :=
  match n with
  | O => EmptyString
  | S n' => String.append CR (crs n')
  end.

(** The thread [worker] runs the loop with: the two functions chosen
    from [opi], the descriptor stored. *)
Definition worker_state (oflags : Z) (e : env) (s : state) : state :=
  set_fd (sys_open e (open_flags oflags s))
    (set_fns (if Z.land (opi s) MFwrt =? 0 then wf_wreader else wf_wwriter)
             (if Z.land (opi s) MFrnd =? 0 then pf_linpos else pf_randpos) s).

(** The trace of a thread. *)
Definition worker_trace (r : thread_end * world * state * list event) : list event :=
  snd r.

(** The loop at the start of iteration [k], no later than [k0], when
    nothing has stopped it: [k] transfers issued and counted. *)
Definition on_the_way (bc : Z) (k0 k : nat) (s : state) (tr : list event) : Prop :=
  (k <= k0)%nat /\ ioc s = Z.of_nat k /\ io_count tr = k
  /\ posfn_ok bc s /\ workfn s <> wf_null.

(** ** The second program of the file: a CPU load at a fixed percentage

    [time_elapsed], [use_cpu] and the check in its [main].  The
    timestamp counter read by [rdtsc] and the return values of [usleep]
    come from an environment.  [unsigned long] values are reduced modulo
    [UL], which is [2^32] or [2^64] with the target. *)

Module CpuUse.

(** [time_elapsed(ohigh, olow)], when [rdtsc] reads [(nhigh, nlow)]:
    [lo = nlow - olow; borrow = lo > nlow; hi = nhigh - ohigh - borrow;
    return (unsigned long long)hi * (1 << 30) * 4 + lo;] *)
Definition time_elapsed (nhigh nlow ohigh olow : Z) : Z :=
  let lo := u32 (nlow - olow) in
  let borrow := if nlow <? lo then 1 else 0 in
  let hi := u32 (u32 (nhigh - ohigh) - borrow) in
  u64 (u64 (u64 (hi * 2 ^ 30) * 4) + lo).

(** The 64-bit counter value that a pair of halves stands for. *)
Definition tsc (high low : Z) : Z := high * 2 ^ 32 + low.

Record cpu_env := mkCpuEnv {
  rdtsc : nat -> Z * Z;     (* the k-th read of the counter: (high, low) *)
  usleep_ret : nat -> Z     (* what the j-th usleep returns *)
}.

(** The two quantities [use_cpu] computes first:
    [use = (unsigned long long)usage * window * mhz / 100] and
    [usleep_time = (100 - usage) * window / 100]. *)
Definition use_ticks (usage window mhz : Z) : Z :=
  u64 (u64 (usage * window) * mhz) / 100.

Definition usleep_time (UL usage window : Z) : Z :=
  (((100 - usage) mod UL) * window) mod UL / 100.

Inductive cpu_outcome :=
| CpuLooping (reads : nat) (slept : list Z)   (* still in while (1) *)
| CpuBroke (reads : nat) (slept : list Z).    (* usleep failed: perror, break *)

(** The [while (1)] of [use_cpu].  [k] counts the reads of the counter
    and [slept] lists, for every call of [usleep] so far, the elapsed
    count that led to it.  When [ut] is zero the condition is false
    before [time_elapsed] is called. *)
Fixpoint use_cpu_loop (e : cpu_env) (fuel : nat) (use ut : Z)
    (high low : Z) (k : nat) (slept : list Z) : cpu_outcome :=
  match fuel with
  | O => CpuLooping k slept
  | S fuel' =>
      if ut =? 0 then use_cpu_loop e fuel' use ut high low k slept
      else
        let (nh, nl) := rdtsc e k in
        let el := time_elapsed nh nl high low in
        if use <=? el then
          if negb (usleep_ret e (length slept) =? 0) then
            CpuBroke (S k) (slept ++ [el])
          else
            let (h', l') := rdtsc e (S k) in
            use_cpu_loop e fuel' use ut h' l' (S (S k)) (slept ++ [el])
        else use_cpu_loop e fuel' use ut high low (S k) slept
  end.

(** [use_cpu]: compute the two quantities, read the counter, loop. *)
Definition use_cpu (UL : Z) (e : cpu_env) (fuel : nat) (usage window mhz : Z)
  : cpu_outcome :=
  let use := use_ticks usage window mhz in
  let ut := usleep_time UL usage window in
  let (high, low) := rdtsc e 0 in
  use_cpu_loop e fuel use ut high low 1 [].

(** The end of its [main]: [if (options.usage > 100) exit(-1);] then
    [use_cpu()]. *)
Definition run (UL : Z) (e : cpu_env) (fuel : nat) (usage window mhz : Z)
  : Z + cpu_outcome :=
  if 100 <? usage then inl (-1) else inr (use_cpu UL e fuel usage window mhz).

Definition outcome_slept (o : cpu_outcome) : list Z :=
  match o with CpuLooping _ s => s | CpuBroke _ s => s end.

Definition outcome_reads (o : cpu_outcome) : nat :=
  match o with CpuLooping k _ => k | CpuBroke k _ => k end.

End CpuUse.

(** The options [-d] and [-s]. *)
Definition is_opt_d (x : opt) : bool :=
  match x with Opt_d => true | _ => false end.
Definition is_opt_s (x : opt) : bool :=
  match x with Opt_s => true | _ => false end.

(** The flags that a list of options asks for. *)
Definition flags_of (os : list opt) : Z :=
  Z.lor (if existsb is_opt_d os then O_DIRECT else 0)
        (if existsb is_opt_s os then O_SYNC else 0).

(** * Properties *)

(** ** Machine integers and the random source *)

Lemma u32_range z : is_u32 (u32 z).
Proof. unfold is_u32, u32, UINT_MOD. apply Z.mod_pos_bound. lia. Qed.

Lemma u32_small z : is_u32 z -> u32 z = z.
Proof. unfold is_u32, u32. intros H. apply Z.mod_small. exact H. Qed.

Lemma to_int_small z : 0 <= z < 2 ^ 31 -> to_int z = z.
Proof.
  intros H. unfold to_int, UINT_MOD.
  rewrite Z.mod_small by lia.
  destruct (z <? 2 ^ 31) eqn:E; [reflexivity | apply Z.ltb_ge in E; lia].
Qed.

Lemma to_int_neg z : - 2 ^ 31 <= z < 0 -> to_int z = z.
Proof.
  intros H. unfold to_int, UINT_MOD.
  replace (z mod 2 ^ 32) with (z + 2 ^ 32).
  - destruct (z + 2 ^ 32 <? 2 ^ 31) eqn:E; [apply Z.ltb_lt in E; lia | lia].
  - apply Z.mod_unique with (q := -1); lia.
Qed.

Lemma lrand48_range X : 0 <= fst (Rand48.lrand48 X) < 2 ^ 31.
Proof.
  unfold Rand48.lrand48, Rand48.next. cbn [fst].
  rewrite Z.shiftr_div_pow2 by lia.
  pose proof (Z.mod_pos_bound (Rand48.a * X + Rand48.c) (2 ^ 48) ltac:(lia)) as Hb.
  split.
  - apply Z.div_pos; lia.
  - apply Z.div_lt_upper_bound; lia.
Qed.

(** ** The linear generator *)

Section Linear.

Variable bc : Z.
Hypothesis bc_u32 : is_u32 bc.

Lemma set_bn_same s : set_bn (bn s) s = s.
Proof. destruct s; reflexivity. Qed.

Lemma set_bn_set_bn v v' s : set_bn v (set_bn v' s) = set_bn v s.
Proof. reflexivity. Qed.

(** Below the block count a call returns the cursor and advances it. *)
Lemma linpos_below s :
  0 <= bn s < bc -> linpos bc s = (bn s, set_bn (bn s + 1) s).
Proof.
  intros H. unfold linpos.
  destruct (bc <=? bn s) eqn:E; [apply Z.leb_le in E; lia |].
  rewrite u32_small; [reflexivity |].
  unfold is_u32 in *. lia.
Qed.

(** At or past the block count a call first rewinds the cursor. *)
Lemma linpos_rewind s :
  bc <= bn s -> linpos bc s = linpos bc (set_bn 0 s).
Proof.
  intros H. unfold linpos.
  destruct (bc <=? bn s) eqn:E; [| apply Z.leb_gt in E; lia].
  cbn [bn set_bn].
  destruct (bc <=? 0) eqn:E0; reflexivity.
Qed.

Lemma linpos_calls_app n m s :
  linpos_calls bc (n + m) s =
  (fst (linpos_calls bc n s) ++ fst (linpos_calls bc m (snd (linpos_calls bc n s))),
   snd (linpos_calls bc m (snd (linpos_calls bc n s)))).
Proof.
  revert s. induction n as [| n IH]; intros s.
  - cbn. destruct (linpos_calls bc m s); reflexivity.
  - cbn [Nat.add linpos_calls].
    destruct (linpos bc s) as [b s1].
    rewrite IH.
    destruct (linpos_calls bc n s1) as [l1 s2]. cbn [fst snd].
    destruct (linpos_calls bc m s2) as [l2 s3]. reflexivity.
Qed.

(** A run of calls that stays below the block count counts upwards. *)
Lemma linpos_calls_up n s :
  0 <= bn s -> bn s + Z.of_nat n <= bc ->
  linpos_calls bc n s =
  (map (fun k => bn s + Z.of_nat k) (seq 0 n), set_bn (bn s + Z.of_nat n) s).
Proof.
  revert s. induction n as [| n IH]; intros s H0 Hle.
  - cbn. rewrite Z.add_0_r, set_bn_same. reflexivity.
  - cbn [linpos_calls]. rewrite linpos_below by lia.
    rewrite IH by (cbn [bn set_bn]; lia).
    cbn [bn set_bn seq map]. rewrite set_bn_set_bn.
    f_equal.
    + f_equal; [lia |].
      rewrite <- seq_shift, map_map.
      apply map_ext. intros k. lia.
    + f_equal. lia.
Qed.

(** One full round, from a cursor at the start or at the end. *)
Lemma linpos_round s :
  bn s = 0 \/ bn s = bc ->
  linpos_calls bc (Z.to_nat bc) s =
  (map Z.of_nat (seq 0 (Z.to_nat bc)),
   if bc =? 0 then s else set_bn bc s).
Proof.
  intros Hs. unfold is_u32 in bc_u32.
  destruct (bc =? 0) eqn:E0.
  - apply Z.eqb_eq in E0. rewrite E0. reflexivity.
  - apply Z.eqb_neq in E0.
    assert (Hup : forall s0, bn s0 = 0 ->
              linpos_calls bc (Z.to_nat bc) s0 =
              (map Z.of_nat (seq 0 (Z.to_nat bc)), set_bn bc s0)).
    { intros s0 H0. rewrite linpos_calls_up by (rewrite ?Z2Nat.id; lia).
      rewrite H0, Z2Nat.id by lia. cbn [Z.add]. f_equal. }
    destruct Hs as [H0 | Hbc]; [apply Hup; exact H0 |].
    destruct (Z.to_nat bc) as [| n] eqn:En; [lia |].
    specialize (Hup (set_bn 0 s) eq_refl).
    cbn [linpos_calls] in *. rewrite linpos_rewind by lia. exact Hup.
Qed.

Lemma linpos_rounds r s :
  bn s = 0 \/ bn s = bc ->
  fst (linpos_calls bc (r * Z.to_nat bc) s) =
  concat (replicate r (map Z.of_nat (seq 0 (Z.to_nat bc))))
  /\ (bn (snd (linpos_calls bc (r * Z.to_nat bc) s)) = 0
      \/ bn (snd (linpos_calls bc (r * Z.to_nat bc) s)) = bc).
Proof.
  revert s. induction r as [| r IH]; intros s Hs.
  - cbn. split; [reflexivity | exact Hs].
  - cbn [Nat.mul]. rewrite linpos_calls_app. cbn [fst snd].
    rewrite (linpos_round s Hs). cbn [fst snd].
    assert (Hs' : bn (if bc =? 0 then s else set_bn bc s) = 0
                  \/ bn (if bc =? 0 then s else set_bn bc s) = bc).
    { destruct (bc =? 0) eqn:E0; [| right; reflexivity].
      apply Z.eqb_eq in E0. destruct Hs; [left | right]; lia. }
    destruct (IH _ Hs') as [IH1 IH2].
    rewrite IH1. split; [reflexivity | exact IH2].
Qed.

Lemma upto_once v :
  0 <= v < bc ->
  count_occ Z.eq_dec (map Z.of_nat (seq 0 (Z.to_nat bc))) v = 1%nat.
Proof.
  intros Hv.
  apply List.NoDup_count_occ'.
  - apply Finite.Injective_map_NoDup; [| apply List.seq_NoDup].
    intros x y Hxy. lia.
  - apply in_map_iff. exists (Z.to_nat v). split; [lia |].
    apply in_seq. lia.
Qed.

End Linear.

(** C3.  For every block count [bc], the linear generator started with
    its cursor at 0 and called [bc] times returns 0, 1, ..., bc-1 in
    this order: every value of [[0, bc)] exactly once and nothing else;
    and any number [r] of such rounds of calls returns that same
    sequence [r] times over. *)
Theorem linpos_full_cycle (bc : Z) (s : state) (r : nat) :
  is_u32 bc -> bn s = 0 ->
  fst (linpos_calls bc (Z.to_nat bc) s) = map Z.of_nat (seq 0 (Z.to_nat bc))
  /\ (forall v, 0 <= v < bc ->
        count_occ Z.eq_dec (fst (linpos_calls bc (Z.to_nat bc) s)) v = 1%nat)
  /\ (forall v, In v (fst (linpos_calls bc (Z.to_nat bc) s)) -> 0 <= v < bc)
  /\ fst (linpos_calls bc (r * Z.to_nat bc) s) =
     concat (replicate r (fst (linpos_calls bc (Z.to_nat bc) s))).
Proof.
  intros Hbc Hs.
  rewrite (linpos_round bc Hbc s (or_introl Hs)). cbn [fst].
  split; [reflexivity |].
  split; [intros v Hv; apply upto_once; exact Hv |].
  split.
  - intros v Hin. apply in_map_iff in Hin. destruct Hin as [k [Hk Hin]].
    apply in_seq in Hin. lia.
  - apply (linpos_rounds bc Hbc r s (or_introl Hs)).
Qed.

Lemma linpos_full_cycle_witness :
  fst (linpos_calls 3 3 state_zero) = [0; 1; 2]
  /\ fst (linpos_calls 3 6 state_zero) = [0; 1; 2; 0; 1; 2].
Proof.
  assert (H3 : is_u32 3) by (unfold is_u32, UINT_MOD; lia).
  destruct (linpos_full_cycle 3 state_zero 2 H3 eq_refl) as [H1 [_ [_ H4]]].
  split; [exact H1 | exact H4].
Defined.

(** ** Range of the block numbers *)

(** With a block count that is not zero the linear generator stays in
    range. *)
Lemma linpos_in_range (bc : Z) (s : state) :
  is_u32 bc -> 0 < bc -> 0 <= bn s ->
  0 <= fst (linpos bc s) < bc /\ 0 <= bn (snd (linpos bc s)).
Proof.
  intros Hbc Hpos Hbn. unfold linpos.
  destruct (bc <=? bn s) eqn:E; cbn [fst snd bn set_bn].
  - split; [lia | apply u32_range].
  - apply Z.leb_gt in E. split; [lia | apply u32_range].
Qed.

(** So does the random one. *)
Lemma randpos_in_range (bc : Z) (w : world) (s : state) :
  0 < bc ->
  exists b, fst (fst (randpos bc w s)) = Some b /\ 0 <= b < bc.
Proof.
  intros Hpos. unfold randpos.
  destruct (Rand48.lrand48 (rng w)) as [r X']. cbn [fst].
  destruct (bc =? 0) eqn:E; [apply Z.eqb_eq in E; lia |].
  eexists. split; [reflexivity |].
  apply Z.mod_pos_bound. exact Hpos.
Qed.

(** C4.  A 100-byte target with the default block size and no [-n]
    gives the block count 100 / 8192 = 0.  The linear generator then
    returns block 0, which is not below the block count, and the random
    generator takes a remainder by zero and returns nothing. *)
Theorem block_index_out_of_range_when_count_is_zero :
  let o := mkOs (fun _ => 3) 100 0 0 0 0 in
  (exists g w sts tr,
     main_start [Opt_R None; Opt_r None] ["target"%string] o = Started g 2 w sts tr
     /\ g_bc g = 0)
  /\ fst (linpos 0 state_zero) = 0
  /\ ~ (0 <= fst (linpos 0 state_zero) < 0)
  /\ forall w s, fst (fst (randpos 0 w s)) = None.
Proof.
  cbv zeta. split; [| split; [| split]].
  - vm_compute. do 4 eexists. split; reflexivity.
  - reflexivity.
  - cbn. lia.
  - intros w s. unfold randpos.
    destruct (Rand48.lrand48 (rng w)). reflexivity.
Qed.

(** ** The worker loop *)

Lemma io_count_app tr tr' : io_count (tr ++ tr') = (io_count tr + io_count tr')%nat.
Proof.
  induction tr as [| ev tr IH]; [reflexivity |].
  cbn. destruct (is_io ev); cbn; rewrite IH; reflexivity.
Qed.

Lemma ok_ios_app tr tr' : ok_ios (tr ++ tr') = (ok_ios tr + ok_ios tr')%nat.
Proof.
  induction tr as [| ev tr IH]; [reflexivity |].
  destruct ev; cbn; try exact IH.
  destruct (ret <? 0); cbn; rewrite IH; reflexivity.
Qed.

Lemma bad_ios_app tr tr' : bad_ios (tr ++ tr') = (bad_ios tr + bad_ios tr')%nat.
Proof.
  induction tr as [| ev tr IH]; [reflexivity |].
  destruct ev; cbn; try exact IH.
  destruct (ret <? 0); cbn; rewrite IH; reflexivity.
Qed.

(** [incc] adds one to [tioc], leaves [running] and the random source
    alone, and issues no transfer. *)
Lemma incc_spec w :
  tioc (fst (incc w)) = u32 (tioc w + 1)
  /\ running (fst (incc w)) = running w
  /\ rng (fst (incc w)) = rng w
  /\ (snd (incc w) = [EvUpdate Gtioc] \/ snd (incc w) = [EvUpdate Gtioc; EvSignal]).
Proof.
  unfold incc. destruct (u32 (tioc w + 1) mod 1000 =? 0); cbn; auto.
Qed.

(** The condition variable is signalled exactly when the new total is a
    multiple of 1000. *)
Lemma incc_signal w :
  In EvSignal (snd (incc w)) <-> u32 (tioc w + 1) mod 1000 = 0.
Proof.
  unfold incc. destruct (u32 (tioc w + 1) mod 1000 =? 0) eqn:E; cbn.
  - apply Z.eqb_eq in E. split; [intros _; exact E | intros _; right; left; reflexivity].
  - apply Z.eqb_neq in E. split; [intros [H | []]; discriminate | intros H; contradiction].
Qed.

Lemma u32_succ_add x n : u32 (u32 (x + 1) + Z.of_nat n) = u32 (x + Z.of_nat (S n)).
Proof.
  unfold u32. rewrite Z.add_mod_idemp_l by (unfold UINT_MOD; lia).
  f_equal. lia.
Qed.

Section Loop.

Variables bs bc bm : Z.
Variable e : env.

Lemma call_posfn_ok w s :
  posfn_ok bc s ->
  exists b w1 s1,
    call_posfn bc w s = (Some b, w1, s1)
    /\ posfn s1 = posfn s /\ workfn s1 = workfn s
    /\ ioc s1 = ioc s /\ opi s1 = opi s /\ running w1 = running w.
Proof.
  unfold posfn_ok, call_posfn. intros [Hl | [Hr Hbc]].
  - rewrite Hl. unfold linpos.
    destruct (bc <=? bn s); do 3 eexists; (split; [reflexivity |]);
      cbn; rewrite ?Hl; auto.
  - rewrite Hr. unfold randpos.
    destruct (Rand48.lrand48 (rng w)) as [r X'].
    destruct (bc =? 0) eqn:E; [apply Z.eqb_eq in E; contradiction |].
    do 3 eexists. split; [reflexivity |]. cbn. auto.
Qed.

Lemma call_workfn_ok k s b :
  workfn s <> wf_null -> no_io_error e ->
  exists wr r, call_workfn bs e k s b = Some (wr, r) /\ 0 <= r.
Proof.
  intros Hw Hio. unfold call_workfn, wwriter, wreader.
  destruct (workfn s); [contradiction | |]; do 2 eexists;
    (split; [reflexivity | apply Hio]).
Qed.

(** With a limit [bm] that is not zero, a thread that still has [n]
    operations to go leaves the loop through the limit test after
    exactly [n] more transfers. *)
Lemma loop_limit n :
  forall fuel k w s tr,
    never_term e -> no_io_error e ->
    posfn_ok bc s -> workfn s <> wf_null ->
    is_u32 bm -> 0 <= ioc s -> (0 < n)%nat ->
    ioc s + Z.of_nat n = bm -> (n <= fuel)%nat ->
    exists w' s' tr',
      worker_loop bs bc bm e fuel k w s tr = LoopExit StopLimit w' s' tr'
      /\ ioc s' = bm
      /\ io_count tr' = (io_count tr + n)%nat
      /\ running w' = running w.
Proof.
  induction n as [| n IH]; intros fuel k w s tr Ht Hio Hp Hw Hbm Hi Hn Hsum Hfuel;
    [lia |].
  destruct fuel as [| fuel]; [lia |].
  cbn [worker_loop]. rewrite (Ht k). cbn [Z.eqb negb].
  destruct (call_posfn_ok w s Hp) as (b & w1 & s1 & Hc & Hp1 & Hw1 & Hi1 & Ho1 & Hr1).
  rewrite Hc.
  assert (Hw1' : workfn s1 <> wf_null) by (rewrite Hw1; exact Hw).
  destruct (call_workfn_ok k s1 b Hw1' Hio) as (wr & r & Hcw & Hr).
  rewrite Hcw.
  destruct (r <? 0) eqn:Er; [apply Z.ltb_lt in Er; lia |].
  destruct (incc w1) as [w2 ev] eqn:Einc.
  pose proof (incc_spec w1) as (_ & Hrun & _ & Hev). rewrite Einc in Hrun, Hev.
  cbn [fst snd] in Hrun, Hev.
  assert (Hevio : io_count ev = 0%nat) by (destruct Hev as [-> | ->]; reflexivity).
  assert (Hnew : u32 (ioc s1 + 1) = ioc s + 1).
  { rewrite Hi1. apply u32_small. unfold is_u32 in *. lia. }
  cbn [ioc set_ioc]. rewrite Hnew.
  assert (Hbm0 : (bm =? 0) = false) by (apply Z.eqb_neq; lia).
  rewrite Hbm0. cbn [negb andb].
  destruct (bm <=? ioc s + 1) eqn:El.
  - apply Z.leb_le in El.
    do 3 eexists. split; [reflexivity |].
    cbn [ioc set_ioc]. split; [lia |].
    split; [| congruence].
    rewrite !io_count_app, Hevio. cbn. lia.
  - apply Z.leb_gt in El.
    destruct n as [| n]; [lia |].
    destruct (IH fuel (S k) w2 (set_ioc (ioc s + 1) s1) ((tr ++ [EvIO wr b r]) ++ ev))
      as (w' & s' & tr' & Hloop & Hioc & Htr & Hrun');
      try assumption; try (cbn [ioc set_ioc posfn workfn]; lia).
    { unfold posfn_ok in *. cbn [posfn set_ioc]. rewrite Hp1. exact Hp. }
    do 3 eexists. split; [exact Hloop |].
    split; [exact Hioc |].
    split; [| congruence].
    rewrite Htr, !io_count_app, Hevio. cbn. lia.
Qed.

(** With [bm = 0] the limit test never fires: whatever the fuel, the
    thread is still in the loop when it runs out, having issued one
    transfer per iteration. *)
Lemma loop_unlimited fuel :
  forall k w s tr,
    never_term e -> no_io_error e ->
    posfn_ok bc s -> workfn s <> wf_null ->
    bm = 0 ->
    exists w' s' tr',
      worker_loop bs bc bm e fuel k w s tr = StillLooping w' s' tr'
      /\ ioc s' = match fuel with O => ioc s | S _ => u32 (ioc s + Z.of_nat fuel) end
      /\ io_count tr' = (io_count tr + fuel)%nat
      /\ running w' = running w.
Proof.
  induction fuel as [| fuel IH]; intros k w s tr Ht Hio Hp Hw Hbm.
  - do 3 eexists. cbn. repeat split. lia.
  - cbn [worker_loop]. rewrite (Ht k). cbn [Z.eqb negb].
    destruct (call_posfn_ok w s Hp) as (b & w1 & s1 & Hc & Hp1 & Hw1 & Hi1 & Ho1 & Hr1).
    rewrite Hc.
    assert (Hw1' : workfn s1 <> wf_null) by (rewrite Hw1; exact Hw).
    destruct (call_workfn_ok k s1 b Hw1' Hio) as (wr & r & Hcw & Hr).
    rewrite Hcw.
    destruct (r <? 0) eqn:Er; [apply Z.ltb_lt in Er; lia |].
    destruct (incc w1) as [w2 ev] eqn:Einc.
    pose proof (incc_spec w1) as (_ & Hrun & _ & Hev). rewrite Einc in Hrun, Hev.
    cbn [fst snd] in Hrun, Hev.
    assert (Hevio : io_count ev = 0%nat) by (destruct Hev as [-> | ->]; reflexivity).
    rewrite Hbm. cbn [Z.eqb negb andb].
    destruct (IH (S k) w2 (set_ioc (u32 (ioc s1 + 1)) s1) ((tr ++ [EvIO wr b r]) ++ ev))
      as (w' & s' & tr' & Hloop & Hioc & Htr & Hrun'); try assumption.
    { unfold posfn_ok in *. cbn [posfn set_ioc]. rewrite Hp1. exact Hp. }
    do 3 eexists. rewrite <- Hbm at 1. split; [exact Hloop |].
    split; [| split; [| congruence]].
    + rewrite Hioc. cbn [ioc set_ioc]. rewrite Hi1.
      destruct fuel as [| fuel'].
      * reflexivity.
      * apply u32_succ_add.
    + rewrite Htr, !io_count_app, Hevio. cbn. lia.
Qed.

End Loop.

(** ** The thread body *)

Section Thread.

Variables bs bc bm oflags : Z.
Variable e : env.

(** Whatever generator is called, it leaves the counters of the thread
    and the shared counters alone. *)
Lemma call_posfn_frame w s :
  ioc (snd (call_posfn bc w s)) = ioc s
  /\ opi (snd (call_posfn bc w s)) = opi s
  /\ running (snd (fst (call_posfn bc w s))) = running w
  /\ tioc (snd (fst (call_posfn bc w s))) = tioc w.
Proof.
  unfold call_posfn. destruct (posfn s).
  - cbn. auto.
  - unfold randpos. destruct (Rand48.lrand48 (rng w)). cbn. auto.
  - unfold linpos. destruct (bc <=? bn s); cbn; auto.
Qed.

(** The loop never writes [running]. *)
Lemma worker_loop_running fuel :
  forall k w s tr,
    running (outcome_world (worker_loop bs bc bm e fuel k w s tr)) = running w.
Proof.
  induction fuel as [| fuel IH]; intros k w s tr; [reflexivity |].
  cbn [worker_loop].
  destruct (negb (term_at e k =? 0)); [reflexivity |].
  pose proof (call_posfn_frame w s) as (_ & _ & Hrun & _).
  destruct (call_posfn bc w s) as [[[b |] w1] s1]; cbn [fst snd] in Hrun;
    [| exact Hrun].
  destruct (call_workfn bs e k s1 b) as [[wr r] |]; [| exact Hrun].
  destruct (r <? 0); [exact Hrun |].
  pose proof (incc_spec w1) as (_ & Hrun2 & _).
  destruct (incc w1) as [w2 ev]. cbn [fst] in Hrun2.
  destruct (negb (bm =? 0) && (bm <=? ioc (set_ioc (u32 (ioc s1 + 1)) s1))).
  - cbn. congruence.
  - rewrite IH. congruence.
Qed.

(** A thread decrements [running] once, when it returns or ends the
    process, and never otherwise. *)
Lemma worker_running fuel w s :
  running (snd (fst (fst (worker bs bc bm oflags e fuel w s)))) =
  match fst (fst (fst (worker bs bc bm oflags e fuel w s))) with
  | ThreadReturned | ProcessExit _ => u32 (running w - 1)
  | ThreadLooping | ThreadFault => running w
  end.
Proof.
  unfold worker.
  match goal with |- context [fd ?s' <? 0] => destruct (fd s' <? 0); [reflexivity |] end.
  match goal with |- context [worker_loop bs bc bm e fuel 0 w ?s' []] =>
    pose proof (worker_loop_running fuel 0%nat w s' []) as Hrun;
    destruct (worker_loop bs bc bm e fuel 0 w s' []) as [w1 s1 tr | why w1 s1 tr]
  end; cbn [outcome_world] in Hrun.
  - cbn. exact Hrun.
  - destruct why; cbn; rewrite Hrun; reflexivity.
Qed.

(** What [worker] does once the target is open, in terms of the loop. *)
Lemma worker_opened fuel w s :
  0 <= sys_open e (open_flags oflags s) ->
  exists s0,
    workfn s0 <> wf_null
    /\ (posfn s0 = if Z.land (opi s) MFrnd =? 0 then pf_linpos else pf_randpos)
    /\ ioc s0 = ioc s /\ opi s0 = opi s
    /\ worker bs bc bm oflags e fuel w s =
       match worker_loop bs bc bm e fuel 0 w s0 [] with
       | StillLooping w1 s1 tr => (ThreadLooping, w1, s1, tr)
       | LoopExit StopFault w1 s1 tr => (ThreadFault, w1, s1, tr)
       | LoopExit _ w1 s1 tr =>
           (ThreadReturned, fst (decnr w1), s1, tr ++ snd (decnr w1))
       end.
Proof.
  intros Hopen. unfold worker, open_flags in *. cbn [opi set_fns fd set_fd].
  eexists. split; [| split; [| split; [| split]]]; cycle 4.
  - match goal with |- context [?x <? 0] =>
      destruct (x <? 0) eqn:E; [apply Z.ltb_lt in E; lia |] end.
    reflexivity.
  - cbn. destruct (Z.land (opi s) MFwrt =? 0); discriminate.
  - reflexivity.
  - reflexivity.
  - reflexivity.
Qed.

Lemma worker_posfn_ok s s0 :
  Z.land (opi s) MFrnd = 0 \/ bc <> 0 ->
  (posfn s0 = if Z.land (opi s) MFrnd =? 0 then pf_linpos else pf_randpos) ->
  posfn_ok bc s0.
Proof.
  intros H Hp. unfold posfn_ok. rewrite Hp.
  destruct (Z.land (opi s) MFrnd =? 0) eqn:E.
  - left. reflexivity.
  - right. split; [reflexivity |].
    apply Z.eqb_neq in E. destruct H; [contradiction | assumption].
Qed.

(** With [bm = 0] a thread that meets no error and no stop flag is
    still looping after any number of iterations. *)
Lemma worker_unlimited fuel w s :
  bm = 0 -> ioc s = 0 ->
  0 <= sys_open e (open_flags oflags s) ->
  never_term e -> no_io_error e ->
  Z.land (opi s) MFrnd = 0 \/ bc <> 0 ->
  exists w' s' tr,
    worker bs bc bm oflags e fuel w s = (ThreadLooping, w', s', tr)
    /\ ioc s' = u32 (Z.of_nat fuel)
    /\ io_count tr = fuel
    /\ running w' = running w.
Proof.
  intros Hbm Hioc Hopen Ht Hio Hpos.
  destruct (worker_opened fuel w s Hopen) as (s0 & Hw0 & Hp0 & Hi0 & _ & Heq).
  pose proof (worker_posfn_ok s s0 Hpos Hp0) as Hok.
  destruct (loop_unlimited bs bc bm e fuel 0%nat w s0 [] Ht Hio Hok Hw0 Hbm)
    as (w' & s' & tr & Hloop & Hioc' & Htr & Hrun).
  rewrite Heq, Hloop. do 3 eexists. split; [reflexivity |].
  split; [| split; [exact Htr | exact Hrun]].
  rewrite Hioc', Hi0, Hioc. destruct fuel; reflexivity.
Qed.

End Thread.

(** ** The operation limit *)

Lemma env_ok_healthy : never_term env_ok /\ no_io_error env_ok.
Proof.
  split; [intros k; reflexivity |].
  intros k off. cbn. rewrite to_int_small; lia.
Qed.

(** With [bm = 0] the loop is never left through the limit test,
    whatever the environment does. *)
Lemma loop_never_limit bs bc e fuel :
  forall k w s tr w' s' tr',
    worker_loop bs bc 0 e fuel k w s tr <> LoopExit StopLimit w' s' tr'.
Proof.
  induction fuel as [| fuel IH]; intros k w s tr w' s' tr'; [discriminate |].
  cbn [worker_loop].
  destruct (negb (term_at e k =? 0)); [discriminate |].
  destruct (call_posfn bc w s) as [[[b |] w1] s1]; [| discriminate].
  destruct (call_workfn bs e k s1 b) as [[wr r] |]; [| discriminate].
  destruct (r <? 0); [discriminate |].
  destruct (incc w1) as [w2 ev].
  cbn [Z.eqb negb andb]. apply IH.
Qed.

(** C5, as the code has it.  For every limit [bm] from 1 to 2^32 - 1, a
    thread whose [open] succeeds, whose counter starts at zero, whose
    generator returns blocks (a linear class, or a block count that is
    not zero), that meets no transfer error and never sees the stop
    flag, issues exactly [bm] transfers, leaves the loop with its
    counter [ioc] equal to [bm], and returns. *)
Theorem worker_performs_limit (bs bc bm oflags : Z) (e : env) (fuel : nat)
    (w : world) (s : state) :
  is_u32 bm -> bm <> 0 -> ioc s = 0 ->
  0 <= sys_open e (open_flags oflags s) ->
  never_term e -> no_io_error e ->
  Z.land (opi s) MFrnd = 0 \/ bc <> 0 ->
  (Z.to_nat bm <= fuel)%nat ->
  exists w' s' tr,
    worker bs bc bm oflags e fuel w s = (ThreadReturned, w', s', tr)
    /\ ioc s' = bm
    /\ io_count tr = Z.to_nat bm.
Proof.
  intros Hbm Hnz Hioc Hopen Ht Hio Hpos Hfuel.
  destruct (worker_opened bs bc bm oflags e fuel w s Hopen)
    as (s0 & Hw0 & Hp0 & Hi0 & _ & Heq).
  pose proof (worker_posfn_ok bc s s0 Hpos Hp0) as Hok.
  unfold is_u32 in Hbm.
  destruct (loop_limit bs bc bm e (Z.to_nat bm) fuel 0%nat w s0 [])
    as (w' & s' & tr & Hloop & Hioc' & Htr & _); try assumption; try lia.
  rewrite Heq, Hloop. do 3 eexists. split; [reflexivity |].
  split; [exact Hioc' |].
  rewrite io_count_app, Htr. cbn. lia.
Qed.

Lemma worker_performs_limit_witness :
  exists w' s' tr,
    worker 8192 128 3 0 env_ok 5 (mkWorld 0 1 0) state_zero = (ThreadReturned, w', s', tr)
    /\ ioc s' = 3
    /\ io_count tr = 3%nat.
Proof.
  apply (worker_performs_limit 8192 128 3 0 env_ok 5 (mkWorld 0 1 0) state_zero).
  - unfold is_u32, UINT_MOD. lia.
  - lia.
  - reflexivity.
  - cbn. lia.
  - apply env_ok_healthy.
  - apply env_ok_healthy.
  - left. reflexivity.
  - cbn. lia.
Defined.

(** C5 fails for the limit 0: [-i 0] stores [bm = 0], and then the
    thread never returns; after five iterations it has issued five
    transfers, not zero. *)
Lemma limit_zero_counterexample :
  (exists g, parse_opts [Opt_i "0"] globals_init = inl g /\ g_bm g = 0)
  /\ ~ (exists fuel w' s' tr,
          worker 8192 128 0 0 env_ok fuel (mkWorld 0 1 0) state_zero
          = (ThreadReturned, w', s', tr))
  /\ exists w' s' tr,
       worker 8192 128 0 0 env_ok 5 (mkWorld 0 1 0) state_zero
       = (ThreadLooping, w', s', tr)
       /\ ioc s' = 5 /\ io_count tr = 5%nat.
Proof.
  split; [eexists; split; reflexivity |].
  split.
  - intros (fuel & w' & s' & tr & H).
    destruct (worker_unlimited 8192 128 0 0 env_ok fuel (mkWorld 0 1 0) state_zero)
      as (w1 & s1 & tr1 & H1 & _);
      try reflexivity; try apply env_ok_healthy; [cbn; lia | left; reflexivity |].
    rewrite H1 in H. discriminate.
  - vm_compute. do 3 eexists. repeat split.
Qed.

(** Options other than [-i] leave [bm] alone. *)
Lemma parse_opts_bm os :
  forall g g',
    (forall a, ~ In (Opt_i a) os) -> parse_opts os g = inl g' ->
    g_bm g' = g_bm g.
Proof.
  induction os as [| o os IH]; intros g g' Hno Hp.
  - cbn in Hp. injection Hp as <-. reflexivity.
  - cbn [parse_opts] in Hp.
    destruct (parse_opt o g) as [g1 |] eqn:E; [| discriminate].
    assert (H1 : g_bm g1 = g_bm g).
    { destruct o; cbn [parse_opt] in E; try discriminate;
        try (injection E as <-; reflexivity).
      exfalso. apply (Hno optarg). left. reflexivity. }
    rewrite <- H1. apply IH; [| exact Hp].
    intros a Hin. apply (Hno a). right. exact Hin.
Qed.

(** C10.  A limit of 0, whether [-i] is absent ([bm] keeps its initial
    0) or given as [-i 0], switches the limit off: the loop is never
    left through the limit test, and a thread that meets no error and
    no stop flag is still looping after any number [fuel] of iterations,
    having issued [fuel] transfers. *)
Theorem zero_limit_is_no_limit (bs bc oflags : Z) (e : env) (fuel : nat)
    (w : world) (s : state) :
  (forall os g, (forall a, ~ In (Opt_i a) os) ->
     parse_opts os globals_init = inl g -> g_bm g = 0)
  /\ (forall g, exists g', parse_opt (Opt_i "0") g = inl g' /\ g_bm g' = 0)
  /\ (forall k tr w' s' tr',
        worker_loop bs bc 0 e fuel k w s tr <> LoopExit StopLimit w' s' tr')
  /\ (ioc s = 0 ->
      0 <= sys_open e (open_flags oflags s) ->
      never_term e -> no_io_error e ->
      Z.land (opi s) MFrnd = 0 \/ bc <> 0 ->
      exists w' s' tr,
        worker bs bc 0 oflags e fuel w s = (ThreadLooping, w', s', tr)
        /\ ioc s' = u32 (Z.of_nat fuel)
        /\ io_count tr = fuel).
Proof.
  split; [intros os g Hno Hp; apply (parse_opts_bm os _ _ Hno Hp) |].
  split; [intros g; eexists; split; reflexivity |].
  split; [intros k tr w' s' tr'; apply loop_never_limit |].
  intros Hioc Hopen Ht Hio Hpos.
  destruct (worker_unlimited bs bc 0 oflags e fuel w s eq_refl Hioc Hopen Ht Hio Hpos)
    as (w' & s' & tr & H & Hi & Hc & _).
  exists w', s', tr. split; [exact H | split; assumption].
Qed.

Lemma zero_limit_is_no_limit_witness :
  exists w' s' tr,
    worker 8192 128 0 0 env_ok 7 (mkWorld 0 1 0) state_zero = (ThreadLooping, w', s', tr)
    /\ ioc s' = u32 7
    /\ io_count tr = 7%nat.
Proof.
  destruct (zero_limit_is_no_limit 8192 128 0 env_ok 7 (mkWorld 0 1 0) state_zero)
    as (_ & _ & _ & H).
  apply H.
  - reflexivity.
  - cbn. lia.
  - apply env_ok_healthy.
  - apply env_ok_healthy.
  - left. reflexivity.
Defined.

(** ** Failure of [open] *)

(** C7.  When the [open] of a thread fails, the thread decrements
    [running] under the mutex and broadcasts, and only then prints the
    reason and ends the process with status 1. *)
Theorem open_failure_aborts (bs bc bm oflags : Z) (e : env) (fuel : nat)
    (w : world) (s : state) :
  sys_open e (open_flags oflags s) < 0 ->
  exists s',
    worker bs bc bm oflags e fuel w s =
    (ProcessExit 1, set_running (u32 (running w - 1)) w, s',
     [EvLock; EvUpdate Grunning; EvUnlock; EvBroadcast; EvEdie; EvExit 1]).
Proof.
  intros Hopen. unfold worker, open_flags in *. cbn [opi set_fns fd set_fd].
  match goal with |- context [?x <? 0] =>
    destruct (x <? 0) eqn:E; [| apply Z.ltb_ge in E; lia] end.
  eexists. reflexivity.
Qed.

Lemma open_failure_aborts_witness :
  exists s',
    worker 8192 128 0 0 env_noopen 5 (mkWorld 0 2 0) state_zero =
    (ProcessExit 1, mkWorld 0 1 0, s',
     [EvLock; EvUpdate Grunning; EvUnlock; EvBroadcast; EvEdie; EvExit 1]).
Proof.
  apply (open_failure_aborts 8192 128 0 0 env_noopen 5 (mkWorld 0 2 0) state_zero).
  cbn. lia.
Defined.

(** ** Transfers that come back short *)

Lemma u32_succ x : u32 (u32 x + 1) = u32 (x + 1).
Proof. unfold u32. apply Z.add_mod_idemp_l. unfold UINT_MOD. lia. Qed.

(** The counter of a thread is the number of its transfers that
    returned a non-negative value; a transfer that returned a negative
    one is the last thing the loop did before [perror]. *)
Lemma loop_accounting bs bc bm e fuel :
  forall k w s tr,
    bad_ios tr = 0%nat -> ioc s = u32 (Z.of_nat (ok_ios tr)) ->
    match worker_loop bs bc bm e fuel k w s tr with
    | LoopExit StopIOError w' s' tr' =>
        ioc s' = u32 (Z.of_nat (ok_ios tr'))
        /\ exists tr0 wr b r,
             tr' = tr0 ++ [EvIO wr b r; EvPerror (opi s')]
             /\ r < 0 /\ bad_ios tr0 = 0%nat
    | LoopExit _ w' s' tr' | StillLooping w' s' tr' =>
        ioc s' = u32 (Z.of_nat (ok_ios tr')) /\ bad_ios tr' = 0%nat
    end.
Proof.
  induction fuel as [| fuel IH]; intros k w s tr Hbad Hioc; [cbn; auto |].
  cbn [worker_loop].
  destruct (negb (term_at e k =? 0)); [auto |].
  pose proof (call_posfn_frame bc w s) as (Hi1 & _).
  destruct (call_posfn bc w s) as [[[b |] w1] s1]; cbn [fst snd] in Hi1;
    [| split; [congruence | exact Hbad]].
  destruct (call_workfn bs e k s1 b) as [[wr r] |];
    [| split; [congruence | exact Hbad]].
  destruct (r <? 0) eqn:Er.
  - split.
    + rewrite !ok_ios_app. cbn. rewrite Er. cbn.
      rewrite Hi1, Hioc. f_equal. lia.
    + exists tr, wr, b, r. rewrite <- app_assoc. cbn.
      apply Z.ltb_lt in Er. auto.
  - pose proof (incc_spec w1) as (_ & _ & _ & Hev).
    destruct (incc w1) as [w2 ev]. cbn [snd] in Hev.
    assert (Hnew_bad : bad_ios ((tr ++ [EvIO wr b r]) ++ ev) = 0%nat).
    { rewrite !bad_ios_app, Hbad. cbn. rewrite Er.
      destruct Hev as [-> | ->]; reflexivity. }
    assert (Hnew_ioc : ioc (set_ioc (u32 (ioc s1 + 1)) s1)
                       = u32 (Z.of_nat (ok_ios ((tr ++ [EvIO wr b r]) ++ ev)))).
    { cbn [ioc set_ioc]. rewrite !ok_ios_app. cbn. rewrite Er.
      rewrite Hi1, Hioc, u32_succ.
      destruct Hev as [-> | ->]; cbn; f_equal; lia. }
    destruct (negb (bm =? 0) && (bm <=? ioc (set_ioc (u32 (ioc s1 + 1)) s1))).
    + split; assumption.
    + apply IH; assumption.
Qed.

(** C2 fails on a short transfer: when every [pread] of an 8192-byte
    block returns 100, a linear reader with limit 3 logs no error, counts
    three operations and returns through the limit test. *)
Lemma short_transfer_counterexample :
  exists w' s',
    worker 8192 128 3 0 env_short 10 (mkWorld 0 1 0) state_zero =
    (ThreadReturned, w', s',
     [EvIO false 0 100; EvUpdate Gtioc;
      EvIO false 1 100; EvUpdate Gtioc;
      EvIO false 2 100; EvUpdate Gtioc;
      EvLock; EvUpdate Grunning; EvUnlock; EvBroadcast])
    /\ ioc s' = 3.
Proof. vm_compute. do 2 eexists. split; reflexivity. Qed.

(** ** The progress counter *)

(** [incc] is its load followed by its store. *)
Lemma incc_load_store w : incc w = incc_store (incc_load w) w.
Proof. reflexivity. Qed.

(** [decnr] brackets its update with the mutex. *)
Lemma decnr_guarded w : guarded false (snd (decnr w)) = true.
Proof. reflexivity. Qed.

(** C6.  [incc] updates [tioc] without taking [rnmtx], unlike [decnr]
    for [running].  With two linear readers and [-i 1] the trace of a
    thread shows the update of [tioc] outside the lock, and when both
    threads load [tioc] before either stores it, two completed
    operations leave [tioc] at 1. *)
Theorem incc_updates_tioc_outside_mutex :
  (forall w, guarded false (snd (incc w)) = false)
  /\ (forall w, guarded false (snd (decnr w)) = true)
  /\ (exists w' s' tr,
        worker 8192 128 1 0 env_ok 5 (mkWorld 0 2 0) state_zero
        = (ThreadReturned, w', s', tr)
        /\ tr = [EvIO false 0 8192; EvUpdate Gtioc;
                 EvLock; EvUpdate Grunning; EvUnlock; EvBroadcast]
        /\ guarded false tr = false)
  /\ (let w0 := mkWorld 0 2 0 in
      let v1 := incc_load w0 in
      let v2 := incc_load w0 in
      let w1 := fst (incc_store v1 w0) in
      let w2 := fst (incc_store v2 w1) in
      tioc w2 = 1).
Proof.
  split; [| split; [| split]].
  - intros w. unfold incc. destruct (u32 (tioc w + 1) mod 1000 =? 0); reflexivity.
  - intros w. reflexivity.
  - vm_compute. do 3 eexists. repeat split.
  - reflexivity.
Qed.

(** ** The counter [running] *)

Lemma live_count_replicate n : live_count (replicate n Live) = n.
Proof. induction n as [| n IH]; cbn; [reflexivity | rewrite IH; reflexivity]. Qed.

Lemma live_count_leave ts :
  forall k, ts !! k = Some Live ->
    S (live_count (<[k := Gone]> ts)) = live_count ts.
Proof.
  induction ts as [| p ts IH]; intros k Hk; [discriminate |].
  destruct k as [| k].
  - cbn in Hk. injection Hk as ->. reflexivity.
  - cbn in Hk. specialize (IH k Hk).
    change (<[S k := Gone]> (p :: ts)) with (p :: <[k := Gone]> ts).
    destruct p; cbn [live_count]; rewrite IH; reflexivity.
Qed.

Lemma live_count_zero ts :
  live_count ts = 0%nat <-> Forall (fun p => p = Gone) ts.
Proof.
  induction ts as [| p ts IH]; cbn.
  - split; [constructor | reflexivity].
  - destruct p.
    + split; [discriminate | intros H; inversion H; discriminate].
    + rewrite IH. split; [intros H; constructor; auto | intros H; inversion H; auto].
Qed.

Lemma live_count_no_live ts k :
  live_count ts = 0%nat -> ts !! k <> Some Live.
Proof.
  intros H0 Hk. pose proof (live_count_leave ts k Hk). lia.
Qed.

(** Every step keeps [running] equal to the number of live threads. *)
Lemma step_counts_live sg sg' :
  counts_live sg -> sys_step sg sg' ->
  counts_live sg'
  /\ (running (sh sg') = running (sh sg) \/ running (sh sg') = running (sh sg) - 1).
Proof.
  intros [Hrun Hlt] Hstep. unfold counts_live.
  destruct Hstep as [sg k Hh Hk | sg k Hh Hk | sg k Hh Hk | sg k Hh Hk]; cbn [sh threads].
  - pose proof (incc_spec (sh sg)) as (_ & Hr & _). rewrite Hr. auto.
  - cbn. auto.
  - pose proof (live_count_leave _ k Hk) as Hl.
    cbn [decnr fst running set_running].
    rewrite u32_small by (unfold is_u32; lia). split; [lia | right; reflexivity].
  - pose proof (live_count_leave _ k Hk) as Hl.
    cbn [decnr fst running set_running].
    rewrite u32_small by (unfold is_u32; lia). split; [lia | right; reflexivity].
Qed.

Lemma zero_is_terminal sg sg' :
  counts_live sg -> running (sh sg) = 0 -> ~ sys_step sg sg'.
Proof.
  intros [Hrun _] H0 Hstep.
  assert (Hl : live_count (threads sg) = 0%nat) by lia.
  destruct Hstep as [sg k Hh Hk | sg k Hh Hk | sg k Hh Hk | sg k Hh Hk];
    exact (live_count_no_live _ k Hl Hk).
Qed.

Lemma run_counts_live sg vs sg' :
  sys_run sg vs sg' -> counts_live sg ->
  counts_live sg'
  /\ steps_down (running (sh sg)) vs
  /\ (forall j, vs !! j = Some 0 -> S j = length vs).
Proof.
  induction 1 as [sg | sg sg1 sg2 vs Hstep Hrun IH]; intros Hinv.
  - split; [exact Hinv |]. split; [exact I | intros j Hj; discriminate].
  - destruct (step_counts_live sg sg1 Hinv Hstep) as [Hinv1 Hdec].
    destruct (IH Hinv1) as (Hinv2 & Hdown & Hzero).
    split; [exact Hinv2 |]. split; [cbn; auto |].
    intros [| j] Hj; cbn in Hj.
    + injection Hj as H0.
      inversion Hrun as [| ? sg1' ? ? Hstep' ]; subst; [reflexivity |].
      exfalso. exact (zero_is_terminal sg1 sg1' Hinv1 H0 Hstep').
    + cbn. f_equal. apply Hzero. exact Hj.
Qed.

(** The option loop keeps the thread counts well formed. *)
Lemma parse_opt_nt o g g' :
  nt_wf (g_nt g) -> parse_opt o g = inl g' -> nt_wf (g_nt g').
Proof.
  intros Hg Hp.
  assert (Hset : forall j a, nt_wf (g_nt (set_nt j (thread_count a) g))).
  { intros j a. destruct Hg as [Hlen Hnn]. cbn [g_nt set_nt]. split.
    - rewrite length_insert. exact Hlen.
    - apply Forall_insert; [exact Hnn | apply u32_range]. }
  destruct o; cbn [parse_opt] in Hp; try discriminate;
    injection Hp as <-; try apply Hset; exact Hg.
Qed.

Lemma parse_opts_nt os :
  forall g g', nt_wf (g_nt g) -> parse_opts os g = inl g' -> nt_wf (g_nt g').
Proof.
  induction os as [| o os IH]; intros g g' Hg Hp.
  - cbn in Hp. injection Hp as <-. exact Hg.
  - cbn in Hp. destruct (parse_opt o g) as [g1 |] eqn:E; [| discriminate].
    apply (IH g1); [apply (parse_opt_nt o g); assumption | exact Hp].
Qed.

Lemma globals_init_nt : nt_wf (g_nt globals_init).
Proof. split; [reflexivity | repeat constructor; lia]. Qed.

Lemma nt_at_nonneg nt j : Forall (fun v => 0 <= v) nt -> 0 <= nt_at nt j.
Proof.
  intros H. unfold nt_at.
  destruct (nt !! Z.to_nat j) as [v |] eqn:E; cbn; [| lia].
  exact (proj1 (Forall_lookup _ _) H _ _ E).
Qed.

Lemma spawn_length nt :
  Forall (fun v => 0 <= v) nt -> Z.of_nat (length (spawn nt)) = nt_sum nt.
Proof.
  intros H. unfold spawn, spawn_class, nt_sum. cbn [flat_map].
  rewrite !length_app, !length_map, !length_seq. cbn [length].
  pose proof (nt_at_nonneg nt 0 H). pose proof (nt_at_nonneg nt 1 H).
  pose proof (nt_at_nonneg nt 2 H). pose proof (nt_at_nonneg nt 3 H).
  lia.
Qed.

Lemma length_place_from k ntt heap l :
  length (place_from k ntt heap l) = length l.
Proof.
  revert k. induction l as [| s l IH]; intros k; [reflexivity |].
  cbn. rewrite IH. reflexivity.
Qed.

(** Threads that all fit in the array get the states of [spawn]. *)
Lemma place_from_inside k ntt heap l :
  Z.of_nat (k + length l) <= ntt -> place_from k ntt heap l = l.
Proof.
  revert k. induction l as [| s l IH]; intros k Hk; [reflexivity |].
  cbn [place_from length] in *.
  destruct (Z.of_nat k <? ntt) eqn:E; [| apply Z.ltb_ge in E; lia].
  rewrite IH by lia. reflexivity.
Qed.

(** What a started [main] has set up, in terms of the parsed options. *)
Lemma main_start_started os args o g ntt w states tr :
  main_start os args o = Started g ntt w states tr ->
  exists g0,
    parse_opts os globals_init = inl g0
    /\ g_nt g = (if u32 (nt_sum (g_nt g0)) =? 0 then <[0%nat := 1]> (g_nt g0) else g_nt g0)
    /\ ntt = (if u32 (nt_sum (g_nt g0)) =? 0 then 1 else u32 (nt_sum (g_nt g0)))
    /\ w = mkWorld 0 ntt (fst (main_seed o (g_nt g)))
    /\ tr = snd (main_seed o (g_nt g))
    /\ states = place ntt (os_heap o) (spawn (g_nt g))
    /\ derive_bc o (g_bs g0) (g_bc g0) = Some (g_bc g)
    /\ g_bm g = g_bm g0.
Proof.
  unfold main_start. intros H.
  destruct (parse_opts os globals_init) as [g0 |]; [| discriminate].
  destruct args as [| fn [| ? ?]]; try discriminate.
  exists g0. fold (nt_sum (g_nt g0)) in H.
  destruct (u32 (nt_sum (g_nt g0)) =? 0) eqn:E0;
    match type of H with context [if ?c <? 0 then _ else _] =>
      destruct (c <? 0); [discriminate |] end;
    cbn [g_bs g_bc g_nt g_bm g_oflags g_tm set_nt] in H;
    destruct (derive_bc o (g_bs g0) (g_bc g0)) as [bc' |]; try discriminate;
    cbn [g_nt] in H;
    match type of H with context [main_seed o ?nt] =>
      destruct (main_seed o nt) as [X tr0] eqn:Es end;
    injection H as <- <- <- <- <-; cbn [g_nt g_bc g_bm set_nt Z.to_nat LinRd];
    rewrite ?Es; repeat split; reflexivity.
Qed.

(** When the thread counts add up without wrapping, [main] sets
    [running] to the number of threads it creates. *)
Lemma main_start_running os args o g0 g ntt w states tr :
  parse_opts os globals_init = inl g0 ->
  nt_sum (g_nt g0) < UINT_MOD ->
  main_start os args o = Started g ntt w states tr ->
  running w = Z.of_nat (length states) /\ running w < UINT_MOD.
Proof.
  intros Hp Hsum Hm.
  destruct (main_start_started _ _ _ _ _ _ _ _ Hm)
    as (g0' & Hp' & Hnt & Hntt & Hw & _ & Hst & _).
  rewrite Hp in Hp'. injection Hp' as <-.
  pose proof (parse_opts_nt os _ _ globals_init_nt Hp) as [Hlen Hnn].
  destruct (g_nt g0) as [| a [| b [| c [| d [| ? ?]]]]] eqn:Ent; try discriminate.
  assert (Ha : 0 <= a /\ 0 <= b /\ 0 <= c /\ 0 <= d).
  { inversion Hnn as [| ? ? ? Hnn1]; subst. inversion Hnn1 as [| ? ? ? Hnn2]; subst.
    inversion Hnn2 as [| ? ? ? Hnn3]; subst. inversion Hnn3; subst. auto. }
  assert (Hs : nt_sum [a; b; c; d] = a + b + c + d) by reflexivity.
  rewrite Hs in Hsum, Hnt, Hntt.
  rewrite Hw, Hst. cbn [running]. unfold place. rewrite length_place_from.
  unfold UINT_MOD in Hsum.
  assert (Hsmall : u32 (a + b + c + d) = a + b + c + d)
    by (apply u32_small; unfold is_u32, UINT_MOD; lia).
  rewrite Hsmall in Hnt, Hntt.
  destruct (a + b + c + d =? 0) eqn:E0.
  - apply Z.eqb_eq in E0.
    assert (a = 0 /\ b = 0 /\ c = 0 /\ d = 0) as (-> & -> & -> & ->) by lia.
    rewrite Hnt, Hntt. split; reflexivity.
  - rewrite Hnt, Hntt, spawn_length by exact Hnn.
    rewrite Hs. unfold UINT_MOD. lia.
Qed.

(** Thread counts that wrap: [-r-1 -R1] stores 2^32 - 1 and 1, whose
    sum is 0 as an [unsigned]; [main] then resets [nt[LinRd]] and [ntt]
    to 1 and goes on to create two threads with [running] at 1 (and
    with room for one state only). *)
Lemma thread_count_wrap_example :
  exists g w states tr,
    main_start [Opt_r (Some "-1"%string); Opt_R (Some "1"%string)]
               ["target"%string] (mkOs (fun _ => 3) 1048576 0 0 0 0)
    = Started g 1 w states tr
    /\ running w = 1 /\ length states = 2%nat.
Proof. vm_compute. do 4 eexists. repeat split. Qed.

(** X22.  When the thread counts add up to less than 2^32, [main] sets
    [running] to the number of threads it creates.  From then on, along
    any run of the threads, each step leaves [running] as it is or takes
    1 off: it never goes up.  It equals the number of threads that have
    not yet called [decnr], so it is 0 exactly when all threads are
    gone; at 0 no step is possible, and 0 is seen at most once, as the
    last value. *)
Theorem running_only_decreases (os : list opt) (args : list string) (o : osenv)
    (g0 g : globals) (ntt : Z) (w : world) (states : list state)
    (tr : list event) (vs : list Z) (sg : sys) :
  parse_opts os globals_init = inl g0 ->
  nt_sum (g_nt g0) < UINT_MOD ->
  main_start os args o = Started g ntt w states tr ->
  sys_run (mkSys w (replicate (length states) Live) false) vs sg ->
  running w = Z.of_nat (length states)
  /\ steps_down (running w) vs
  /\ running (sh sg) = Z.of_nat (live_count (threads sg))
  /\ (running (sh sg) = 0 <-> Forall (fun p => p = Gone) (threads sg))
  /\ (running (sh sg) = 0 -> forall sg', ~ sys_step sg sg')
  /\ (forall j, vs !! j = Some 0 -> S j = length vs).
Proof.
  intros Hp Hsum Hm Hrun.
  destruct (main_start_running _ _ _ _ _ _ _ _ _ Hp Hsum Hm) as [Hinit Hlt].
  assert (Hinv : counts_live (mkSys w (replicate (length states) Live) false)).
  { unfold counts_live. cbn [sh threads]. rewrite live_count_replicate. lia. }
  destruct (run_counts_live _ _ _ Hrun Hinv) as (Hinv' & Hdown & Hzero).
  split; [exact Hinit |]. split; [exact Hdown |].
  split; [apply Hinv' |].
  split.
  - rewrite <- live_count_zero. destruct Hinv' as [-> _]. lia.
  - split; [| exact Hzero].
    intros H0 sg'. apply zero_is_terminal; assumption.
Qed.

Lemma running_only_decreases_witness :
  running (mkWorld 0 2 0) = Z.of_nat (length (spawn [2; 0; 0; 0]))
  /\ steps_down (running (mkWorld 0 2 0)) [1; 0]
  /\ running (sh (mkSys (mkWorld 0 0 0) [Gone; Gone] false))
     = Z.of_nat (live_count (threads (mkSys (mkWorld 0 0 0) [Gone; Gone] false)))
  /\ (running (sh (mkSys (mkWorld 0 0 0) [Gone; Gone] false)) = 0
      <-> Forall (fun p => p = Gone)
            (threads (mkSys (mkWorld 0 0 0) [Gone; Gone] false)))
  /\ (running (sh (mkSys (mkWorld 0 0 0) [Gone; Gone] false)) = 0 ->
      forall sg', ~ sys_step (mkSys (mkWorld 0 0 0) [Gone; Gone] false) sg')
  /\ (forall j, [1; 0] !! j = Some 0 -> S j = length [1; 0]).
Proof.
  apply (running_only_decreases [Opt_r (Some "2"%string)] ["target"%string]
           (mkOs (fun _ => 3) 1048576 0 0 0 0)
           (mkGlobals 0 8192 0 0 [2; 0; 0; 0] 0)
           (mkGlobals 0 8192 128 0 [2; 0; 0; 0] 0)
           2 (mkWorld 0 2 0) (spawn [2; 0; 0; 0]) [] [1; 0]
           (mkSys (mkWorld 0 0 0) [Gone; Gone] false)).
  - reflexivity.
  - vm_compute. reflexivity.
  - reflexivity.
  - apply (run_cons _ (mkSys (mkWorld 0 1 0) [Gone; Live] false)).
    + apply (step_leave (mkSys (mkWorld 0 2 0) [Live; Live] false) 0); reflexivity.
    + apply (run_cons _ (mkSys (mkWorld 0 0 0) [Gone; Gone] false)).
      * apply (step_leave (mkSys (mkWorld 0 1 0) [Gone; Live] false) 1); reflexivity.
      * apply run_nil.
Defined.


(** With a block count of zero a thread of a random class faults at
    its first call of [randpos], before any transfer, whatever its
    limit. *)
Lemma random_worker_faults_without_blocks :
  worker 8192 0 3 0 env_ok 9 (mkWorld 0 1 0) (mkState 0 0 wf_null pf_null RndRd 0 0)
  = (ThreadFault, mkWorld 0 1 (Rand48.next 0),
     mkState 3 0 wf_wreader pf_randpos RndRd 0 0, []).
Proof. vm_compute. reflexivity. Qed.

(** ** The seed of the random source *)

(** [main] reads neither the clock nor the process id. *)
Lemma main_start_ignores_clock os args op sz blk t1 p1 t2 p2 X :
  main_start os args (mkOs op sz blk t1 p1 X)
  = main_start os args (mkOs op sz blk t2 p2 X).
Proof. reflexivity. Qed.

Lemma main_seed_random o nt :
  nt_at nt RndRd <> 0 \/ nt_at nt RndWr <> 0 ->
  main_seed o nt = (Rand48.srand48 SEED, [EvSrand48 SEED]).
Proof.
  intros H. unfold main_seed.
  destruct (nt_at nt RndRd =? 0) eqn:E1; [| reflexivity].
  destruct (nt_at nt RndWr =? 0) eqn:E2; [| reflexivity].
  apply Z.eqb_eq in E1, E2. destruct H; contradiction.
Qed.

Lemma seed_count_app tr tr' :
  seed_count (tr ++ tr') = (seed_count tr + seed_count tr')%nat.
Proof.
  induction tr as [| ev tr IH]; [reflexivity |].
  destruct ev; cbn; rewrite ?IH; reflexivity.
Qed.

(** The loop of a thread never seeds the random source. *)
Lemma worker_loop_no_seed bs bc bm e fuel :
  forall k w s tr,
    seed_count (outcome_trace (worker_loop bs bc bm e fuel k w s tr)) = seed_count tr.
Proof.
  induction fuel as [| fuel IH]; intros k w s tr; [reflexivity |].
  cbn [worker_loop].
  destruct (negb (term_at e k =? 0)); [reflexivity |].
  destruct (call_posfn bc w s) as [[[b |] w1] s1]; [| reflexivity].
  destruct (call_workfn bs e k s1 b) as [[wr r] |]; [| reflexivity].
  destruct (r <? 0).
  - cbn. rewrite !seed_count_app. cbn. lia.
  - pose proof (incc_spec w1) as (_ & _ & _ & Hev).
    destruct (incc w1) as [w2 ev]. cbn [snd] in Hev.
    assert (Hs : seed_count ((tr ++ [EvIO wr b r]) ++ ev) = seed_count tr).
    { rewrite !seed_count_app. destruct Hev as [-> | ->]; cbn; lia. }
    destruct (negb (bm =? 0) && (bm <=? ioc (set_ioc (u32 (ioc s1 + 1)) s1))).
    + cbn. exact Hs.
    + rewrite IH. exact Hs.
Qed.

(** C8.  In a run with threads of a random class, [main] seeds the
    random source once, with the constant [0xfeda432], whatever the
    clock, the process id and the earlier state of the source are.  So
    two runs with the same options and the same block count draw the
    same sequence of block numbers. *)
Theorem random_draws_reproducible (os : list opt) (args : list string)
    (o1 o2 : osenv) (g1 g2 : globals) (ntt1 ntt2 : Z) (w1 w2 : world)
    (st1 st2 : list state) (tr1 tr2 : list event) (n : nat) :
  main_start os args o1 = Started g1 ntt1 w1 st1 tr1 ->
  main_start os args o2 = Started g2 ntt2 w2 st2 tr2 ->
  nt_at (g_nt g1) RndRd <> 0 \/ nt_at (g_nt g1) RndWr <> 0 ->
  g_bc g1 = g_bc g2 ->
  tr1 = [EvSrand48 SEED] /\ tr2 = [EvSrand48 SEED]
  /\ rng w1 = Rand48.srand48 SEED /\ rng w2 = Rand48.srand48 SEED
  /\ draws (g_bc g1) (rng w1) n = draws (g_bc g2) (rng w2) n.
Proof.
  intros H1 H2 Hrnd Hbc.
  destruct (main_start_started _ _ _ _ _ _ _ _ H1)
    as (g0 & Hp & Hnt1 & _ & Hw1 & Htr1 & _).
  destruct (main_start_started _ _ _ _ _ _ _ _ H2)
    as (g0' & Hp' & Hnt2 & _ & Hw2 & Htr2 & _).
  rewrite Hp in Hp'. injection Hp' as <-.
  assert (Hnt : g_nt g2 = g_nt g1) by congruence.
  rewrite Hnt in Hw2, Htr2.
  rewrite (main_seed_random o1 _ Hrnd) in Hw1, Htr1.
  rewrite (main_seed_random o2 _ Hrnd) in Hw2, Htr2.
  cbn [fst snd] in *. subst w1 w2 tr1 tr2. cbn [rng].
  rewrite Hbc. repeat split; reflexivity.
Qed.

Lemma random_draws_reproducible_witness :
  draws 128 (Rand48.srand48 SEED) 4 = draws 128 (Rand48.srand48 SEED) 4.
Proof.
  pose (o1 := mkOs (fun _ => 3) 1048576 0 111 500 1).
  pose (o2 := mkOs (fun _ => 4) 1048576 0 999 777 2).
  destruct (random_draws_reproducible [Opt_R (Some "2"%string)] ["target"%string] o1 o2
              (mkGlobals 0 8192 128 0 [0; 2; 0; 0] 0)
              (mkGlobals 0 8192 128 0 [0; 2; 0; 0] 0)
              2 2
              (mkWorld 0 2 (Rand48.srand48 SEED))
              (mkWorld 0 2 (Rand48.srand48 SEED))
              (spawn [0; 2; 0; 0]) (spawn [0; 2; 0; 0])
              [EvSrand48 SEED] [EvSrand48 SEED] 4)
    as (_ & _ & _ & _ & H).
  - reflexivity.
  - reflexivity.
  - left. vm_compute. discriminate.
  - reflexivity.
  - exact H.
Defined.

(** ** The final report *)

Lemma u32_add_l p q : u32 (u32 p + q) = u32 (p + q).
Proof. unfold u32. apply Z.add_mod_idemp_l. unfold UINT_MOD. lia. Qed.

(** One turn of the loop of [pst] adds the counter of the thread to the
    total of the four counts, modulo 2^32. *)
Lemma pst_step c s :
  length c = 4%nat -> 0 <= opi s < 4 ->
  length (alter (fun v => u32 (v + ioc s)) (Z.to_nat (opi s)) c) = 4%nat
  /\ u32 (total (alter (fun v => u32 (v + ioc s)) (Z.to_nat (opi s)) c))
     = u32 (total c + ioc s).
Proof.
  intros Hlen Hopi.
  destruct c as [| c0 [| c1 [| c2 [| c3 [| ? ?]]]]]; try discriminate.
  assert (Hcase : opi s = 0 \/ opi s = 1 \/ opi s = 2 \/ opi s = 3) by lia.
  destruct Hcase as [-> | [-> | [-> | ->]]];
    (split; [reflexivity |]);
    change (Z.to_nat 0) with 0%nat; change (Z.to_nat 1) with 1%nat;
    change (Z.to_nat 2) with 2%nat; change (Z.to_nat 3) with 3%nat;
    cbn [alter list_alter total fold_right].
  - replace (u32 (c0 + ioc s) + (c1 + (c2 + (c3 + 0))))
      with (u32 (c0 + ioc s) + (c1 + c2 + c3)) by lia.
    rewrite u32_add_l. f_equal. lia.
  - replace (c0 + (u32 (c1 + ioc s) + (c2 + (c3 + 0))))
      with (u32 (c1 + ioc s) + (c0 + c2 + c3)) by lia.
    rewrite u32_add_l. f_equal. lia.
  - replace (c0 + (c1 + (u32 (c2 + ioc s) + (c3 + 0))))
      with (u32 (c2 + ioc s) + (c0 + c1 + c3)) by lia.
    rewrite u32_add_l. f_equal. lia.
  - replace (c0 + (c1 + (c2 + (u32 (c3 + ioc s) + 0))))
      with (u32 (c3 + ioc s) + (c0 + c1 + c2)) by lia.
    rewrite u32_add_l. f_equal. lia.
Qed.

Lemma pst_fold l :
  forall c,
    length c = 4%nat -> Forall (fun s => 0 <= opi s < 4) l ->
    u32 (total (fold_left
                  (fun c s => alter (fun v => u32 (v + ioc s)) (Z.to_nat (opi s)) c)
                  l c))
    = u32 (total c + total (map ioc l)).
Proof.
  induction l as [| s l IH]; intros c Hlen Hall.
  - cbn [fold_left map].
    replace (total c + total []) with (total c) by (cbn; lia). reflexivity.
  - inversion Hall as [| ? ? Hs Hl]; subst.
    destruct (pst_step c s Hlen Hs) as [Hlen' Hsum].
    cbn [fold_left map]. rewrite (IH _ Hlen' Hl).
    change (total (ioc s :: map ioc l)) with (ioc s + total (map ioc l)).
    rewrite <- u32_add_l, Hsum, u32_add_l. f_equal. lia.
Qed.

Lemma append_empty s : String.append s EmptyString = s.
Proof. induction s as [| ch s IH]; cbn; [reflexivity | rewrite IH; reflexivity]. Qed.

(** The states that [main] creates carry a class from 0 to 3 and
    counters at zero. *)
Lemma spawn_classes nt :
  Forall (fun s => 0 <= opi s < 4 /\ ioc s = 0 /\ bn s = 0) (spawn nt).
Proof.
  unfold spawn. cbn [flat_map]. rewrite !Forall_app.
  repeat split; try constructor;
    unfold spawn_class; apply Forall_forall; intros s Hin;
    apply list_elem_of_In, in_map_iff in Hin; destruct Hin as [k [<- _]]; cbn; lia.
Qed.

(** C1, as the code has it.  [pst] writes nothing, so at completion the
    program adds only a newline to the standard output: no count is
    printed.  The four per-class counts that [pst] computes and drops
    add up, modulo 2^32, to the sum of the counters of the threads. *)
Theorem final_report_prints_no_counts (ntt : Z) (states : list state) (io : streams) :
  Forall (fun s => 0 <= opi s < 4) states ->
  pst ntt states = EmptyString
  /\ sout (main_finish ntt states io) = String.append (sout io) NL
  /\ u32 (total (pst_counts ntt states))
     = u32 (total (map ioc (take (Z.to_nat ntt) states))).
Proof.
  intros Hall. split; [reflexivity |].
  split; [unfold main_finish, pst; cbn [sout serr]; rewrite append_empty; reflexivity |].
  unfold pst_counts. rewrite pst_fold; [f_equal | reflexivity |].
  apply Forall_take. exact Hall.
Qed.

Lemma final_report_prints_no_counts_witness :
  sout (main_finish 1 [mkState 3 128 wf_wreader pf_linpos 0 0 128] (mkStreams "" ""))
  = String.append "" NL
  /\ u32 (total (pst_counts 1 [mkState 3 128 wf_wreader pf_linpos 0 0 128])) = u32 128.
Proof.
  destruct (final_report_prints_no_counts 1
              [mkState 3 128 wf_wreader pf_linpos 0 0 128] (mkStreams "" ""))
    as (_ & H1 & H2).
  - repeat constructor; cbn; lia.
  - split; [exact H1 | exact H2].
Defined.

(** C1 fails: the 128-block linear read of the scenario ends with the
    counter of its thread at 128, and the standard output then holds a
    newline and no digit at all. *)
Lemma final_report_counterexample :
  exists w' s' tr,
    worker 8192 128 128 0 env_ok 200 (mkWorld 0 1 0) state_zero
    = (ThreadReturned, w', s', tr)
    /\ ioc s' = 128
    /\ sout (main_finish 1 [s'] (mkStreams "" "")) = NL
    /\ has_digit (sout (main_finish 1 [s'] (mkStreams "" ""))) = false.
Proof. vm_compute. do 3 eexists. repeat split. Qed.

(** * Further properties of the engine *)

(** ** A rule for the loop of [worker]

    [I] holds when an iteration begins; one iteration either leaves the
    loop in a state that satisfies [Q] or begins the next one with [I]
    again. *)

Section LoopRule.

Variables bs bc bm : Z.
Variable e : env.
Variable I : nat -> world -> state -> list event -> Prop.
Variable Q : stop -> world -> state -> list event -> Prop.

Hypothesis iteration : forall k w s tr,
  I k w s tr ->
  if negb (term_at e k =? 0) then Q StopTerm w s tr else
  match call_posfn bc w s with
  | (None, w1, s1) => Q StopFault w1 s1 tr
  | (Some b, w1, s1) =>
      match call_workfn bs e k s1 b with
      | None => Q StopFault w1 s1 tr
      | Some (wr, r) =>
          if r <? 0 then
            Q StopIOError w1 s1 ((tr ++ [EvIO wr b r]) ++ [EvPerror (opi s1)])
          else
            if negb (bm =? 0) && (bm <=? u32 (ioc s1 + 1)) then
              Q StopLimit (fst (incc w1)) (set_ioc (u32 (ioc s1 + 1)) s1)
                ((tr ++ [EvIO wr b r]) ++ snd (incc w1))
            else
              I (S k) (fst (incc w1)) (set_ioc (u32 (ioc s1 + 1)) s1)
                ((tr ++ [EvIO wr b r]) ++ snd (incc w1))
      end
  end.

Lemma worker_loop_rule fuel :
  forall k w s tr,
    I k w s tr ->
    match worker_loop bs bc bm e fuel k w s tr with
    | StillLooping w' s' tr' => I (k + fuel)%nat w' s' tr'
    | LoopExit why w' s' tr' => Q why w' s' tr'
    end.
Proof.
  induction fuel as [| fuel IH]; intros k w s tr HI.
  - cbn. rewrite Nat.add_0_r. exact HI.
  - pose proof (iteration k w s tr HI) as Hit.
    cbn [worker_loop].
    destruct (negb (term_at e k =? 0)); [exact Hit |].
    destruct (call_posfn bc w s) as [[[b |] w1] s1]; [| exact Hit].
    destruct (call_workfn bs e k s1 b) as [[wr r] |]; [| exact Hit].
    destruct (r <? 0); [exact Hit |].
    destruct (incc w1) as [w2 ev]. cbn [fst snd ioc set_ioc] in *.
    destruct (negb (bm =? 0) && (bm <=? u32 (ioc s1 + 1))); [exact Hit |].
    replace (k + S fuel)%nat with (S k + fuel)%nat by lia.
    apply IH. exact Hit.
Qed.

End LoopRule.

(** ** The two ways through [worker] *)

Lemma call_posfn_fns bc w s :
  workfn (snd (call_posfn bc w s)) = workfn s
  /\ posfn (snd (call_posfn bc w s)) = posfn s
  /\ fd (snd (call_posfn bc w s)) = fd s.
Proof.
  unfold call_posfn. destruct (posfn s) eqn:E.
  - cbn. auto.
  - unfold randpos. destruct (Rand48.lrand48 (rng w)). cbn. auto.
  - unfold linpos. destruct (bc <=? bn s); cbn; auto.
Qed.

(** [worker] either fails to open the target, counts itself out and
    ends the process, or runs the loop from [worker_state] and, unless
    the loop is still going or has faulted, counts itself out and
    returns. *)
Lemma worker_split bs bc bm oflags e fuel w s :
  (sys_open e (open_flags oflags s) < 0
   /\ worker bs bc bm oflags e fuel w s =
      (ProcessExit 1, fst (decnr w), worker_state oflags e s, snd (decnr w) ++ edie))
  \/ (0 <= sys_open e (open_flags oflags s)
      /\ worker bs bc bm oflags e fuel w s =
         match worker_loop bs bc bm e fuel 0 w (worker_state oflags e s) [] with
         | StillLooping w1 s1 tr => (ThreadLooping, w1, s1, tr)
         | LoopExit StopFault w1 s1 tr => (ThreadFault, w1, s1, tr)
         | LoopExit _ w1 s1 tr =>
             (ThreadReturned, fst (decnr w1), s1, tr ++ snd (decnr w1))
         end).
Proof.
  unfold worker, worker_state, open_flags. cbn [opi set_fns fd set_fd].
  match goal with |- context [?x <? 0] => destruct (x <? 0) eqn:E end.
  - left. apply Z.ltb_lt in E. split; [exact E | reflexivity].
  - right. apply Z.ltb_ge in E. split; [exact E | reflexivity].
Qed.

(** ** Where the transfers go *)

Lemma call_posfn_range bc w s :
  is_u32 bc -> 0 < bc -> 0 <= bn s ->
  match call_posfn bc w s with
  | (Some b, _, s1) => 0 <= b < bc /\ 0 <= bn s1
  | (None, _, _) => True
  end.
Proof.
  intros Hbc Hpos Hbn. unfold call_posfn. destruct (posfn s).
  - exact I.
  - destruct (randpos_in_range bc w s Hpos) as (b & Hb & Hr).
    destruct (randpos bc w s) as [[ob w1] s1] eqn:E. cbn in Hb. subst ob.
    split; [exact Hr |].
    unfold randpos in E. destruct (Rand48.lrand48 (rng w)).
    injection E as _ _ <-. exact Hbn.
  - pose proof (linpos_in_range bc s Hbc Hpos Hbn) as H.
    destruct (linpos bc s) as [b s1]. exact H.
Qed.

(** X1.  With a block count that is not zero, every transfer of a
    thread, in any environment, is at a block number below the block
    count. *)
Theorem worker_blocks_in_range (bs bc bm oflags : Z) (e : env) (fuel : nat)
    (w : world) (s : state) :
  is_u32 bc -> 0 < bc -> 0 <= bn s ->
  Forall (ev_in_range bc) (worker_trace (worker bs bc bm oflags e fuel w s)).
Proof.
  intros Hbc Hpos Hbn.
  assert (Hloop : forall s0, 0 <= bn s0 ->
            Forall (ev_in_range bc)
              (outcome_trace (worker_loop bs bc bm e fuel 0 w s0 []))).
  { intros s0 Hbn0.
    pose proof (worker_loop_rule bs bc bm e
                  (fun _ _ s tr => 0 <= bn s /\ Forall (ev_in_range bc) tr)
                  (fun _ _ _ tr => Forall (ev_in_range bc) tr)) as Hrule.
    cbv beta in Hrule. lapply Hrule; clear Hrule.
    - intros Hrule.
      specialize (Hrule fuel 0%nat w s0 [] (conj Hbn0 (List.Forall_nil _))).
      destruct (worker_loop bs bc bm e fuel 0 w s0 []); cbn [outcome_trace];
        [apply Hrule | exact Hrule].
    - intros k w' s' tr' [Hb Htr].
      destruct (negb (term_at e k =? 0)); [exact Htr |].
      pose proof (call_posfn_range bc w' s' Hbc Hpos Hb) as Hrange.
      destruct (call_posfn bc w' s') as [[[b |] w2] s2]; [| exact Htr].
      destruct (call_workfn bs e k s2 b) as [[wr r] |]; [| exact Htr].
      destruct Hrange as [Hbr Hbn2].
      assert (Hio : Forall (ev_in_range bc) (tr' ++ [EvIO wr b r]))
        by (apply Forall_app_2;
            [exact Htr | apply List.Forall_cons; [exact Hbr | apply List.Forall_nil]]).
      assert (Hinc : Forall (ev_in_range bc) (snd (incc w2)))
        by (destruct (incc_spec w2) as (_ & _ & _ & [-> | ->]); repeat constructor).
      destruct (r <? 0);
        [apply Forall_app; split; [exact Hio | repeat constructor] |].
      destruct (negb (bm =? 0) && (bm <=? u32 (ioc s2 + 1)));
        [| split; [exact Hbn2 |]]; apply Forall_app; split; assumption. }
  unfold worker_trace.
  destruct (worker_split bs bc bm oflags e fuel w s) as [[_ ->] | [_ ->]].
  - cbn. repeat constructor.
  - specialize (Hloop (worker_state oflags e s) Hbn).
    destruct (worker_loop bs bc bm e fuel 0 w (worker_state oflags e s) [])
      as [w1 s1 tr | why w1 s1 tr]; cbn [outcome_trace] in Hloop; [exact Hloop |].
    destruct why; cbn [snd]; try exact Hloop;
      apply Forall_app; split; try exact Hloop; repeat constructor.
Qed.

Lemma worker_blocks_in_range_witness :
  Forall (ev_in_range 128)
    (worker_trace (worker 8192 128 3 0 env_ok 5 (mkWorld 0 1 0) state_zero)).
Proof.
  apply (worker_blocks_in_range 8192 128 3 0 env_ok 5 (mkWorld 0 1 0) state_zero).
  - unfold is_u32, UINT_MOD. lia.
  - lia.
  - cbn. lia.
Defined.

(** ** Properties of every transfer of a thread

    [P] holds of every event of the trace of a thread when it holds of
    the events that are no transfers and of every transfer the loop can
    issue from a state that satisfies [J]. *)

Section Transfers.

Variables bs bc bm oflags : Z.
Variable e : env.
Variable P : event -> Prop.
Variable J : state -> Prop.

Hypothesis P_other : forall ev, is_io ev = false -> P ev.
Hypothesis J_ioc : forall v s, J s -> J (set_ioc v s).
Hypothesis P_io : forall k w s b w1 s1 wr r,
  J s -> call_posfn bc w s = (Some b, w1, s1) ->
  call_workfn bs e k s1 b = Some (wr, r) ->
  J s1 /\ P (EvIO wr b r).

Lemma loop_transfers fuel w s :
  J s -> Forall P (outcome_trace (worker_loop bs bc bm e fuel 0 w s [])).
Proof.
  intros HJ.
  pose proof (worker_loop_rule bs bc bm e
                (fun _ _ s tr => J s /\ Forall P tr)
                (fun _ _ _ tr => Forall P tr)) as Hrule.
  cbv beta in Hrule. lapply Hrule; clear Hrule.
  - intros Hrule.
    specialize (Hrule fuel 0%nat w s [] (conj HJ (List.Forall_nil _))).
    destruct (worker_loop bs bc bm e fuel 0 w s []); cbn [outcome_trace];
      [apply Hrule | exact Hrule].
  - intros k w' s' tr' [HJ' Htr].
    destruct (negb (term_at e k =? 0)); [exact Htr |].
    destruct (call_posfn bc w' s') as [[[b |] w2] s2] eqn:Ep; [| exact Htr].
    destruct (call_workfn bs e k s2 b) as [[wr r] |] eqn:Ew; [| exact Htr].
    destruct (P_io k w' s' b w2 s2 wr r HJ' Ep Ew) as [HJ2 HP].
    assert (Hio : Forall P (tr' ++ [EvIO wr b r]))
      by (apply Forall_app_2;
          [exact Htr | apply List.Forall_cons; [exact HP | apply List.Forall_nil]]).
    assert (Hinc : Forall P (snd (incc w2))).
    { destruct (incc_spec w2) as (_ & _ & _ & [-> | ->]);
        repeat apply List.Forall_cons; try apply List.Forall_nil;
        apply P_other; reflexivity. }
    destruct (r <? 0).
    + apply Forall_app_2; [exact Hio |].
      apply List.Forall_cons; [apply P_other; reflexivity | apply List.Forall_nil].
    + destruct (negb (bm =? 0) && (bm <=? u32 (ioc s2 + 1)));
        [| split; [apply J_ioc; exact HJ2 |]]; apply Forall_app_2; assumption.
Qed.

Lemma worker_transfers fuel w s :
  J (worker_state oflags e s) ->
  Forall P (worker_trace (worker bs bc bm oflags e fuel w s)).
Proof.
  intros HJ. unfold worker_trace.
  assert (Hdec : forall w0, Forall P (snd (decnr w0)))
    by (intros w0; cbn; repeat apply List.Forall_cons; try apply List.Forall_nil;
        apply P_other; reflexivity).
  destruct (worker_split bs bc bm oflags e fuel w s) as [[_ ->] | [_ ->]].
  - cbn [snd]. apply Forall_app_2; [apply Hdec |].
    unfold edie. repeat apply List.Forall_cons; try apply List.Forall_nil;
      apply P_other; reflexivity.
  - pose proof (loop_transfers fuel w _ HJ) as Hloop.
    destruct (worker_loop bs bc bm e fuel 0 w (worker_state oflags e s) [])
      as [w1 s1 tr | why w1 s1 tr]; cbn [outcome_trace] in Hloop; [exact Hloop |].
    destruct why; cbn [snd]; try exact Hloop;
      apply Forall_app_2; try exact Hloop; apply Hdec.
Qed.

End Transfers.

(** X2.  A thread of a read class ([opi] without the [MFwrt] bit) never
    calls [pwrite], and a thread of a write class never calls [pread],
    in any environment and however long it runs. *)
Theorem worker_direction (bs bc bm oflags : Z) (e : env) (fuel : nat)
    (w : world) (s : state) :
  Forall (ev_dir (negb (Z.land (opi s) MFwrt =? 0)))
    (worker_trace (worker bs bc bm oflags e fuel w s)).
Proof.
  set (wr0 := negb (Z.land (opi s) MFwrt =? 0)).
  apply (worker_transfers bs bc bm oflags e (ev_dir wr0)
           (fun s0 => workfn s0 = if wr0 then wf_wwriter else wf_wreader)).
  - intros ev Hev. destruct ev; try exact Logic.I. discriminate.
  - intros v s0 H. exact H.
  - intros k w0 s0 b w1 s1 wr r HJ Ep Ew.
    pose proof (call_posfn_fns bc w0 s0) as (Hwf & _).
    rewrite Ep in Hwf. cbn [snd] in Hwf.
    split; [congruence |].
    unfold call_workfn in Ew. rewrite Hwf, HJ in Ew.
    destruct wr0; injection Ew as <- _; reflexivity.
  - unfold worker_state, wr0. cbn [workfn set_fd set_fns].
    destruct (Z.land (opi s) MFwrt =? 0); reflexivity.
Qed.

(** Two environments that agree on the stop flag and on the transfers
    at the blocks below [bc] give the same run of the loop. *)
Lemma worker_loop_ext bs bc bm e e' fuel :
  is_u32 bc -> 0 < bc ->
  (forall k, term_at e k = term_at e' k) ->
  (forall k b, 0 <= b < bc ->
     sys_pwrite e k (b * bs) = sys_pwrite e' k (b * bs)
     /\ sys_pread e k (b * bs) = sys_pread e' k (b * bs)) ->
  forall k w s tr,
    0 <= bn s ->
    worker_loop bs bc bm e fuel k w s tr = worker_loop bs bc bm e' fuel k w s tr.
Proof.
  intros Hbc Hpos Hterm Hio.
  induction fuel as [| fuel IH]; intros k w s tr Hbn; [reflexivity |].
  cbn [worker_loop]. rewrite <- (Hterm k).
  destruct (negb (term_at e k =? 0)); [reflexivity |].
  pose proof (call_posfn_range bc w s Hbc Hpos Hbn) as Hrange.
  destruct (call_posfn bc w s) as [[[b |] w1] s1]; [| reflexivity].
  destruct Hrange as [Hb Hbn1].
  assert (Hcall : call_workfn bs e k s1 b = call_workfn bs e' k s1 b).
  { unfold call_workfn, wwriter, wreader.
    destruct (Hio k b Hb) as [Hw Hr]. rewrite Hw, Hr. reflexivity. }
  rewrite <- Hcall.
  destruct (call_workfn bs e k s1 b) as [[wr r] |]; [| reflexivity].
  destruct (r <? 0); [reflexivity |].
  destruct (incc w1) as [w2 ev].
  destruct (negb (bm =? 0) && (bm <=? ioc (set_ioc (u32 (ioc s1 + 1)) s1)));
    [reflexivity |].
  apply IH. exact Hbn1.
Qed.

(** X3.  When the block count was derived from the size [sz] of the
    target ([bc = sz / bs] as an [unsigned], [bs] not zero) and is not
    zero, a thread passes to [pread] and [pwrite] only byte offsets [off]
    with [0 <= off] and [off + bs <= sz]: its run is the same in any two
    environments that answer alike at these offsets, whatever they
    answer at an offset outside the target. *)
Theorem worker_transfers_inside_target (o : osenv) (bs bc bm oflags : Z)
    (e e' : env) (fuel : nat) (w : world) (s : state) :
  0 < bs -> derive_bc o bs 0 = Some bc -> 0 < bc -> 0 <= bn s ->
  (forall fl, sys_open e fl = sys_open e' fl) ->
  (forall k, term_at e k = term_at e' k) ->
  (forall k off, 0 <= off -> off + bs <= target_size o ->
     sys_pwrite e k off = sys_pwrite e' k off
     /\ sys_pread e k off = sys_pread e' k off) ->
  worker bs bc bm oflags e fuel w s = worker bs bc bm oflags e' fuel w s.
Proof.
  intros Hbs Hd Hpos Hbn Hopen Hterm Hio.
  unfold derive_bc in Hd. cbn [Z.eqb] in Hd. fold (target_size o) in Hd.
  destruct (bs =? 0) eqn:E0; [apply Z.eqb_eq in E0; lia |].
  injection Hd as Hd.
  assert (Hsz : 0 <= target_size o).
  { unfold target_size, u64.
    destruct (os_st_size o =? 0); apply Z.mod_pos_bound; lia. }
  assert (Hq : 0 <= target_size o / bs) by (apply Z.div_pos; lia).
  assert (Hle : bc <= target_size o / bs).
  { rewrite <- Hd. unfold u32, UINT_MOD. apply Z.mod_le; lia. }
  assert (Hfit : bc * bs <= target_size o).
  { pose proof (Z.mul_div_le (target_size o) bs Hbs). nia. }
  assert (Hu : is_u32 bc) by (rewrite <- Hd; apply u32_range).
  assert (Hblocks : forall k b, 0 <= b < bc ->
            sys_pwrite e k (b * bs) = sys_pwrite e' k (b * bs)
            /\ sys_pread e k (b * bs) = sys_pread e' k (b * bs))
    by (intros k b Hb; apply Hio; nia).
  assert (Hst : worker_state oflags e s = worker_state oflags e' s)
    by (unfold worker_state; rewrite Hopen; reflexivity).
  destruct (worker_split bs bc bm oflags e fuel w s) as [[H1 ->] | [H1 ->]];
    destruct (worker_split bs bc bm oflags e' fuel w s) as [[H2 ->] | [H2 ->]];
    rewrite (Hopen (open_flags oflags s)) in H1; try lia.
  - rewrite Hst. reflexivity.
  - rewrite Hst.
    rewrite (worker_loop_ext bs bc bm e e' fuel Hu Hpos Hterm Hblocks);
      [reflexivity | exact Hbn].
Qed.

Lemma worker_transfers_inside_target_witness :
  worker 8192 128 0 0 env_ok 300 (mkWorld 0 1 0) state_zero
  = worker 8192 128 0 0
      (mkEnv (fun _ => 3)
             (fun _ off => if off + 8192 <=? 1048576 then 8192 else -1)
             (fun _ off => if off + 8192 <=? 1048576 then 8192 else -1)
             (fun _ => 0))
      300 (mkWorld 0 1 0) state_zero.
Proof.
  apply (worker_transfers_inside_target (mkOs (fun _ => 3) 1048576 0 0 0 0)
           8192 128 0 0 env_ok
           (mkEnv (fun _ => 3)
                  (fun _ off => if off + 8192 <=? 1048576 then 8192 else -1)
                  (fun _ off => if off + 8192 <=? 1048576 then 8192 else -1)
                  (fun _ => 0))
           300 (mkWorld 0 1 0) state_zero).
  - lia.
  - reflexivity.
  - lia.
  - cbn. lia.
  - intros fl. reflexivity.
  - intros k. reflexivity.
  - intros k off H0 H1. change (target_size (mkOs (fun _ => 3) 1048576 0 0 0 0))
      with 1048576 in H1.
    cbn [sys_pwrite sys_pread env_ok].
    destruct (off + 8192 <=? 1048576) eqn:E; [split; reflexivity |].
    apply Z.leb_gt in E. lia.
Defined.

(** ** When a thread stops *)

Lemma call_workfn_cases bs e k s b :
  workfn s <> wf_null ->
  exists wr r,
    call_workfn bs e k s b = Some (wr, r)
    /\ (r = to_int (sys_pwrite e k (b * bs)) \/ r = to_int (sys_pread e k (b * bs))).
Proof.
  intros Hw. unfold call_workfn, wwriter, wreader.
  destruct (workfn s); [contradiction | |]; do 2 eexists; split; eauto.
Qed.

Lemma worker_state_ok bc oflags e s :
  Z.land (opi s) MFrnd = 0 \/ bc <> 0 ->
  posfn_ok bc (worker_state oflags e s)
  /\ workfn (worker_state oflags e s) <> wf_null
  /\ ioc (worker_state oflags e s) = ioc s
  /\ opi (worker_state oflags e s) = opi s.
Proof.
  intros Hpos. unfold worker_state.
  split; [| split; [| split; reflexivity]].
  - apply (worker_posfn_ok bc s); [exact Hpos | reflexivity].
  - cbn. destruct (Z.land (opi s) MFwrt =? 0); discriminate.
Qed.

Lemma io_count_split tr : io_count tr = (ok_ios tr + bad_ios tr)%nat.
Proof.
  induction tr as [| ev tr IH]; [reflexivity |].
  destruct ev; cbn; try exact IH.
  destruct (ret <? 0); cbn; rewrite IH; lia.
Qed.

Section Stops.

Variables bs bc bm oflags : Z.
Variable e : env.
Variable k0 : nat.

Hypothesis k0_small : Z.of_nat k0 < UINT_MOD.
Hypothesis below_limit : bm = 0 \/ Z.of_nat k0 < bm.

Lemma limit_not_reached (k : nat) :
  (k < k0)%nat ->
  negb (bm =? 0) && (bm <=? u32 (Z.of_nat k + 1)) = false.
Proof.
  intros Hk. rewrite u32_small by (unfold is_u32; lia).
  destruct below_limit as [-> | Hlt]; [reflexivity |].
  apply andb_false_intro2. apply Z.leb_gt. lia.
Qed.

Lemma loop_stops_on_term fuel w s :
  (forall j, (j < k0)%nat -> term_at e j = 0) ->
  term_at e k0 <> 0 ->
  (forall j off, (j < k0)%nat ->
     0 <= to_int (sys_pwrite e j off) /\ 0 <= to_int (sys_pread e j off)) ->
  posfn_ok bc s -> workfn s <> wf_null -> ioc s = 0 ->
  (k0 < fuel)%nat ->
  exists w' s' tr,
    worker_loop bs bc bm e fuel 0 w s [] = LoopExit StopTerm w' s' tr
    /\ ioc s' = Z.of_nat k0 /\ io_count tr = k0.
Proof.
  intros Hbefore Hat Hio Hp Hw Hioc Hfuel.
  pose proof (worker_loop_rule bs bc bm e
                (fun k _ s tr => on_the_way bc k0 k s tr)
                (fun why _ s tr => why = StopTerm /\ ioc s = Z.of_nat k0
                                   /\ io_count tr = k0)) as Hrule.
  cbv beta in Hrule. lapply Hrule; clear Hrule.
  - intros Hrule.
    assert (H0 : on_the_way bc k0 0 s []) by (unfold on_the_way; repeat split; auto; lia).
    specialize (Hrule fuel 0%nat w s [] H0).
    destruct (worker_loop bs bc bm e fuel 0 w s []) as [w1 s1 tr | why w1 s1 tr].
    + destruct Hrule as [Hle _]. lia.
    + destruct Hrule as (-> & Hi & Hc). exists w1, s1, tr. auto.
  - intros k w' s' tr' (Hle & Hi & Hc & Hp' & Hw').
    destruct (term_at e k =? 0) eqn:Et; cbn [negb].
    + apply Z.eqb_eq in Et.
      assert (Hk : (k < k0)%nat).
      { destruct (Nat.eq_dec k k0) as [-> | Hne]; [contradiction | lia]. }
      destruct (call_posfn_ok bc w' s' Hp')
        as (b & w1 & s1 & Hc1 & Hp1 & Hw1 & Hi1 & _).
      rewrite Hc1.
      assert (Hw1' : workfn s1 <> wf_null) by (rewrite Hw1; exact Hw').
      destruct (call_workfn_cases bs e k s1 b Hw1') as (wr & r & -> & Hr).
      assert (Hr0 : 0 <= r) by (destruct Hr as [-> | ->]; apply (Hio k _ Hk)).
      destruct (r <? 0) eqn:Er; [apply Z.ltb_lt in Er; lia |].
      rewrite Hi1, Hi, (limit_not_reached k Hk).
      unfold on_the_way. cbn [ioc set_ioc posfn workfn].
      rewrite u32_small by (unfold is_u32; lia).
      split; [lia |]. split; [lia |]. split.
      * rewrite !io_count_app, Hc. cbn.
        destruct (incc_spec w1) as (_ & _ & _ & [-> | ->]); cbn; lia.
      * split; [| exact Hw1'].
        unfold posfn_ok in *. cbn [posfn set_ioc]. rewrite Hp1. exact Hp'.
    + apply Z.eqb_neq in Et.
      assert (k = k0) as ->.
      { destruct (Nat.eq_dec k k0) as [-> | Hne]; [reflexivity |].
        exfalso. apply Et. apply Hbefore. lia. }
      auto.
Qed.

Lemma loop_stops_on_error fuel w s :
  (forall j, (j <= k0)%nat -> term_at e j = 0) ->
  (forall j off, (j < k0)%nat ->
     0 <= to_int (sys_pwrite e j off) /\ 0 <= to_int (sys_pread e j off)) ->
  (forall off, to_int (sys_pwrite e k0 off) < 0 /\ to_int (sys_pread e k0 off) < 0) ->
  posfn_ok bc s -> workfn s <> wf_null -> ioc s = 0 ->
  (k0 < fuel)%nat ->
  exists w' s' tr0 wr b r,
    worker_loop bs bc bm e fuel 0 w s [] =
    LoopExit StopIOError w' s' (tr0 ++ [EvIO wr b r; EvPerror (opi s)])
    /\ r < 0 /\ ioc s' = Z.of_nat k0 /\ io_count tr0 = k0.
Proof.
  intros Hterm Hio Hfail Hp Hw Hioc Hfuel.
  pose proof (worker_loop_rule bs bc bm e
                (fun k _ s0 tr => on_the_way bc k0 k s0 tr /\ opi s0 = opi s)
                (fun why _ s' tr =>
                   why = StopIOError /\ ioc s' = Z.of_nat k0
                   /\ exists tr0 wr b r,
                        tr = tr0 ++ [EvIO wr b r; EvPerror (opi s)]
                        /\ r < 0 /\ io_count tr0 = k0)) as Hrule.
  cbv beta in Hrule. lapply Hrule; clear Hrule.
  - intros Hrule.
    assert (H0 : on_the_way bc k0 0 s []) by (unfold on_the_way; repeat split; auto; lia).
    specialize (Hrule fuel 0%nat w s [] (conj H0 eq_refl)).
    destruct (worker_loop bs bc bm e fuel 0 w s []) as [w1 s1 tr | why w1 s1 tr].
    + destruct Hrule as [[Hle _] _]. lia.
    + destruct Hrule as (-> & Hi & tr0 & wr & b & r & -> & Hr & Hc).
      exists w1, s1, tr0, wr, b, r. auto.
  - intros k w' s' tr' ((Hle & Hi & Hc & Hp' & Hw') & Ho).
    rewrite (Hterm k Hle). cbn [Z.eqb negb].
    destruct (call_posfn_ok bc w' s' Hp')
      as (b & w1 & s1 & Hc1 & Hp1 & Hw1 & Hi1 & Ho1 & _).
    rewrite Hc1.
    assert (Hw1' : workfn s1 <> wf_null) by (rewrite Hw1; exact Hw').
    destruct (call_workfn_cases bs e k s1 b Hw1') as (wr & r & -> & Hr).
    destruct (Nat.eq_dec k k0) as [-> | Hne].
    + assert (Hr0 : r < 0) by (destruct Hr as [-> | ->]; apply Hfail).
      destruct (r <? 0) eqn:Er; [| apply Z.ltb_ge in Er; lia].
      split; [reflexivity |]. split; [congruence |].
      exists tr', wr, b, r. rewrite <- app_assoc. cbn.
      rewrite Ho1, Ho. auto.
    + assert (Hk : (k < k0)%nat) by lia.
      assert (Hr0 : 0 <= r) by (destruct Hr as [-> | ->]; apply (Hio k _ Hk)).
      destruct (r <? 0) eqn:Er; [apply Z.ltb_lt in Er; lia |].
      rewrite Hi1, Hi, (limit_not_reached k Hk).
      unfold on_the_way. cbn [ioc set_ioc posfn workfn opi].
      rewrite u32_small by (unfold is_u32; lia).
      split; [| congruence].
      split; [lia |]. split; [lia |]. split.
      * rewrite !io_count_app, Hc. cbn.
        destruct (incc_spec w1) as (_ & _ & _ & [-> | ->]); cbn; lia.
      * split; [| exact Hw1'].
        unfold posfn_ok in *. cbn [posfn set_ioc]. rewrite Hp1. exact Hp'.
Qed.

End Stops.

(** X4.  Cooperative stop.  When the stop flag is first seen set at the
    poll of iteration [k0], and no earlier transfer failed and the limit
    was not reached, the thread has completed exactly [k0] operations;
    it issues no further transfer, counts itself out of [running] and
    returns. *)
Theorem worker_stops_on_term (bs bc bm oflags : Z) (e : env) (k0 fuel : nat)
    (w : world) (s : state) :
  Z.of_nat k0 < UINT_MOD -> bm = 0 \/ Z.of_nat k0 < bm ->
  (forall j, (j < k0)%nat -> term_at e j = 0) ->
  term_at e k0 <> 0 ->
  (forall j off, (j < k0)%nat ->
     0 <= to_int (sys_pwrite e j off) /\ 0 <= to_int (sys_pread e j off)) ->
  0 <= sys_open e (open_flags oflags s) ->
  Z.land (opi s) MFrnd = 0 \/ bc <> 0 ->
  ioc s = 0 -> (k0 < fuel)%nat ->
  exists w' s' tr,
    worker bs bc bm oflags e fuel w s = (ThreadReturned, w', s', tr)
    /\ ioc s' = Z.of_nat k0
    /\ io_count tr = k0
    /\ running w' = u32 (running w - 1).
Proof.
  intros Hk0 Hlim Hbefore Hat Hio Hopen Hpos Hioc Hfuel.
  destruct (worker_state_ok bc oflags e s Hpos) as (Hp & Hw & Hi & _).
  destruct (loop_stops_on_term bs bc bm e k0 Hk0 Hlim fuel w
              (worker_state oflags e s) Hbefore Hat Hio Hp Hw)
    as (w1 & s1 & tr & Hloop & Hi1 & Hc1); [congruence | exact Hfuel |].
  pose proof (worker_loop_running bs bc bm e fuel 0%nat w
                (worker_state oflags e s) []) as Hrun.
  rewrite Hloop in Hrun. cbn [outcome_world] in Hrun.
  destruct (worker_split bs bc bm oflags e fuel w s) as [[Hneg _] | [_ Heq]]; [lia |].
  rewrite Hloop in Heq. rewrite Heq.
  do 3 eexists. split; [reflexivity |].
  split; [exact Hi1 |]. split.
  - rewrite io_count_app, Hc1. cbn. lia.
  - cbn. rewrite Hrun. reflexivity.
Qed.

Lemma worker_stops_on_term_witness :
  exists w' s' tr,
    worker 8192 128 0 0
      (mkEnv (fun _ => 3) (fun _ _ => 8192) (fun _ _ => 8192)
             (fun k => if (k <? 2)%nat then 0 else 14))
      9 (mkWorld 0 1 0) state_zero = (ThreadReturned, w', s', tr)
    /\ ioc s' = 2
    /\ io_count tr = 2%nat
    /\ running w' = u32 (1 - 1).
Proof.
  apply (worker_stops_on_term 8192 128 0 0
           (mkEnv (fun _ => 3) (fun _ _ => 8192) (fun _ _ => 8192)
                  (fun k => if (k <? 2)%nat then 0 else 14))
           2 9 (mkWorld 0 1 0) state_zero).
  - unfold UINT_MOD. lia.
  - left. reflexivity.
  - intros j Hj. apply Nat.ltb_lt in Hj. cbn [term_at]. rewrite Hj. reflexivity.
  - cbn. lia.
  - intros j off _. cbn. rewrite to_int_small; lia.
  - cbn. lia.
  - left. reflexivity.
  - reflexivity.
  - lia.
Defined.

(** X5.  A failed transfer stops one thread, not the process.  When
    the transfer of iteration [k0] is the first to return a negative
    value (and no stop flag or limit ends the loop earlier), the thread
    has completed [k0] operations, reports the error once with [perror]
    under the name of its class, issues no further transfer, counts
    itself out of [running] under the mutex and returns: [exit] is not
    called. *)
Theorem worker_stops_on_error (bs bc bm oflags : Z) (e : env) (k0 fuel : nat)
    (w : world) (s : state) :
  Z.of_nat k0 < UINT_MOD -> bm = 0 \/ Z.of_nat k0 < bm ->
  (forall j, (j <= k0)%nat -> term_at e j = 0) ->
  (forall j off, (j < k0)%nat ->
     0 <= to_int (sys_pwrite e j off) /\ 0 <= to_int (sys_pread e j off)) ->
  (forall off, to_int (sys_pwrite e k0 off) < 0 /\ to_int (sys_pread e k0 off) < 0) ->
  0 <= sys_open e (open_flags oflags s) ->
  Z.land (opi s) MFrnd = 0 \/ bc <> 0 ->
  ioc s = 0 -> (k0 < fuel)%nat ->
  exists w' s' tr0 wr b r,
    worker bs bc bm oflags e fuel w s =
    (ThreadReturned, w', s',
     tr0 ++ [EvIO wr b r; EvPerror (opi s);
             EvLock; EvUpdate Grunning; EvUnlock; EvBroadcast])
    /\ r < 0
    /\ ioc s' = Z.of_nat k0
    /\ io_count tr0 = k0
    /\ running w' = u32 (running w - 1).
Proof.
  intros Hk0 Hlim Hterm Hio Hfail Hopen Hpos Hioc Hfuel.
  destruct (worker_state_ok bc oflags e s Hpos) as (Hp & Hw & Hi & Ho).
  destruct (loop_stops_on_error bs bc bm e k0 Hk0 Hlim fuel w
              (worker_state oflags e s) Hterm Hio Hfail Hp Hw)
    as (w1 & s1 & tr0 & wr & b & r & Hloop & Hr & Hi1 & Hc1);
    [congruence | exact Hfuel |].
  rewrite Ho in Hloop.
  pose proof (worker_loop_running bs bc bm e fuel 0%nat w
                (worker_state oflags e s) []) as Hrun.
  rewrite Hloop in Hrun. cbn [outcome_world] in Hrun.
  destruct (worker_split bs bc bm oflags e fuel w s) as [[Hneg _] | [_ Heq]]; [lia |].
  rewrite Hloop in Heq. rewrite Heq.
  exists (fst (decnr w1)), s1, tr0, wr, b, r.
  split; [rewrite <- app_assoc; reflexivity |].
  split; [exact Hr |]. split; [exact Hi1 |]. split; [exact Hc1 |].
  cbn. rewrite Hrun. reflexivity.
Qed.

Lemma worker_stops_on_error_witness :
  exists w' s' tr0 wr b r,
    worker 8192 128 0 0
      (mkEnv (fun _ => 3) (fun k _ => if (k <? 2)%nat then 8192 else -1)
             (fun k _ => if (k <? 2)%nat then 8192 else -1) (fun _ => 0))
      9 (mkWorld 0 1 0) state_zero =
    (ThreadReturned, w', s',
     tr0 ++ [EvIO wr b r; EvPerror (opi state_zero);
             EvLock; EvUpdate Grunning; EvUnlock; EvBroadcast])
    /\ r < 0
    /\ ioc s' = 2
    /\ io_count tr0 = 2%nat
    /\ running w' = u32 (1 - 1).
Proof.
  apply (worker_stops_on_error 8192 128 0 0
           (mkEnv (fun _ => 3) (fun k _ => if (k <? 2)%nat then 8192 else -1)
                  (fun k _ => if (k <? 2)%nat then 8192 else -1) (fun _ => 0))
           2 9 (mkWorld 0 1 0) state_zero).
  - unfold UINT_MOD. lia.
  - left. reflexivity.
  - intros j _. reflexivity.
  - intros j off Hj. apply Nat.ltb_lt in Hj. cbn [sys_pwrite sys_pread].
    rewrite Hj. rewrite to_int_small; lia.
  - intros off. cbn. rewrite to_int_neg; lia.
  - cbn. lia.
  - left. reflexivity.
  - reflexivity.
  - lia.
Defined.

(** X6.  With a limit [bm] that is not zero, a thread never issues more
    than [bm] transfers and its counter never passes [bm], whatever the
    environment does and however long it runs. *)
Theorem worker_never_exceeds_limit (bs bc bm oflags : Z) (e : env) (fuel : nat)
    (w : world) (s : state) :
  is_u32 bm -> 0 < bm -> ioc s = 0 ->
  Z.of_nat (io_count (worker_trace (worker bs bc bm oflags e fuel w s))) <= bm
  /\ 0 <= ioc (snd (fst (worker bs bc bm oflags e fuel w s))) <= bm.
Proof.
  intros Hbm Hpos Hioc. unfold is_u32 in Hbm.
  pose proof (worker_loop_rule bs bc bm e
                (fun _ _ s0 tr => 0 <= ioc s0 < bm
                                  /\ Z.of_nat (ok_ios tr) = ioc s0
                                  /\ bad_ios tr = 0%nat)
                (fun _ _ s0 tr => 0 <= ioc s0 <= bm
                                  /\ Z.of_nat (io_count tr) <= bm)) as Hrule.
  cbv beta in Hrule. lapply Hrule; clear Hrule.
  - intros Hrule. unfold worker_trace.
    destruct (worker_split bs bc bm oflags e fuel w s) as [[_ ->] | [_ ->]].
    + cbn. rewrite Hioc. lia.
    + assert (H0 : 0 <= ioc (worker_state oflags e s) < bm
                   /\ Z.of_nat (ok_ios []) = ioc (worker_state oflags e s)
                   /\ bad_ios [] = 0%nat).
      { cbn. rewrite Hioc. lia. }
      specialize (Hrule fuel 0%nat w _ [] H0).
      destruct (worker_loop bs bc bm e fuel 0 w (worker_state oflags e s) [])
        as [w1 s1 tr | why w1 s1 tr].
      * destruct Hrule as (Hi & Hok & Hbad). cbn [fst snd].
        rewrite io_count_split. lia.
      * destruct Hrule as (Hi & Hc).
        destruct why; cbn [fst snd]; rewrite ?io_count_app; cbn; lia.
  - intros k w' s' tr' (Hi & Hok & Hbad).
    destruct (negb (term_at e k =? 0)).
    { rewrite io_count_split. lia. }
    pose proof (call_posfn_frame bc w' s') as (Hi1 & _).
    destruct (call_posfn bc w' s') as [[[b |] w1] s1]; cbn [snd] in Hi1.
    2: { rewrite io_count_split. lia. }
    destruct (call_workfn bs e k s1 b) as [[wr r] |].
    2: { rewrite io_count_split. lia. }
    destruct (r <? 0) eqn:Er.
    + rewrite io_count_split, !ok_ios_app, !bad_ios_app. cbn. rewrite Er. cbn. lia.
    + assert (Hnew : u32 (ioc s1 + 1) = ioc s' + 1)
        by (rewrite Hi1; apply u32_small; unfold is_u32; lia).
      rewrite Hnew. cbn [ioc set_ioc].
      assert (Hev : ok_ios (snd (incc w1)) = 0%nat /\ bad_ios (snd (incc w1)) = 0%nat)
        by (destruct (incc_spec w1) as (_ & _ & _ & [-> | ->]); split; reflexivity).
      destruct Hev as [Hev1 Hev2].
      destruct (bm =? 0) eqn:E0; [apply Z.eqb_eq in E0; lia |]. cbn [negb andb].
      destruct (bm <=? ioc s' + 1) eqn:El.
      * apply Z.leb_le in El.
        rewrite io_count_split, !ok_ios_app, !bad_ios_app, Hev1, Hev2.
        cbn. rewrite Er. cbn. lia.
      * apply Z.leb_gt in El.
        rewrite !ok_ios_app, !bad_ios_app, Hev1, Hev2. cbn. rewrite Er. cbn. lia.
Qed.

Lemma worker_never_exceeds_limit_witness :
  Z.of_nat (io_count (worker_trace
              (worker 8192 128 3 0 env_short 9 (mkWorld 0 1 0) state_zero))) <= 3
  /\ 0 <= ioc (snd (fst (worker 8192 128 3 0 env_short 9 (mkWorld 0 1 0) state_zero))) <= 3.
Proof.
  apply (worker_never_exceeds_limit 8192 128 3 0 env_short 9 (mkWorld 0 1 0) state_zero).
  - unfold is_u32, UINT_MOD. lia.
  - lia.
  - reflexivity.
Defined.

(** ** What a thread does to the shared variables *)

Lemma guarded_running_quiet tr :
  Forall ev_quiet tr ->
  forall held tr', guarded_running held (tr ++ tr') = guarded_running held tr'.
Proof.
  induction 1 as [| ev tr Hev Htr IH]; intros held tr'; [reflexivity |].
  destruct ev as [| | | | [|] | | | | |]; cbn in Hev |- *; try contradiction; apply IH.
Qed.

Lemma loop_quiet bs bc bm e fuel w s :
  Forall ev_quiet (outcome_trace (worker_loop bs bc bm e fuel 0 w s [])).
Proof.
  pose proof (worker_loop_rule bs bc bm e
                (fun _ _ _ tr => Forall ev_quiet tr)
                (fun _ _ _ tr => Forall ev_quiet tr)) as Hrule.
  cbv beta in Hrule. lapply Hrule; clear Hrule.
  - intros Hrule. specialize (Hrule fuel 0%nat w s [] (List.Forall_nil _)).
    destruct (worker_loop bs bc bm e fuel 0 w s []); exact Hrule.
  - intros k w' s' tr' Htr.
    destruct (negb (term_at e k =? 0)); [exact Htr |].
    destruct (call_posfn bc w' s') as [[[b |] w1] s1]; [| exact Htr].
    destruct (call_workfn bs e k s1 b) as [[wr r] |]; [| exact Htr].
    assert (Hio : Forall ev_quiet (tr' ++ [EvIO wr b r]))
      by (apply Forall_app_2; [exact Htr | repeat constructor]).
    assert (Hinc : Forall ev_quiet (snd (incc w1)))
      by (destruct (incc_spec w1) as (_ & _ & _ & [-> | ->]); repeat constructor).
    destruct (r <? 0); [apply Forall_app_2; [exact Hio | repeat constructor] |].
    destruct (negb (bm =? 0) && (bm <=? u32 (ioc s1 + 1)));
      apply Forall_app_2; assumption.
Qed.

(** X7.  A thread takes [rnmtx] around every update of [running], never
    seeds the random source, and changes [running] exactly by one
    decrement when it returns or ends the process, and not at all while
    it is still looping. *)
Theorem worker_counts_out_once (bs bc bm oflags : Z) (e : env) (fuel : nat)
    (w : world) (s : state) :
  guarded_running false (worker_trace (worker bs bc bm oflags e fuel w s)) = true
  /\ seed_count (worker_trace (worker bs bc bm oflags e fuel w s)) = 0%nat
  /\ running (snd (fst (fst (worker bs bc bm oflags e fuel w s)))) =
     match fst (fst (fst (worker bs bc bm oflags e fuel w s))) with
     | ThreadReturned | ProcessExit _ => u32 (running w - 1)
     | ThreadLooping | ThreadFault => running w
     end.
Proof.
  split; [| split].
  - unfold worker_trace.
    pose proof (loop_quiet bs bc bm e fuel w (worker_state oflags e s)) as Hq.
    destruct (worker_split bs bc bm oflags e fuel w s) as [[_ ->] | [_ ->]];
      [reflexivity |].
    destruct (worker_loop bs bc bm e fuel 0 w (worker_state oflags e s) [])
      as [w1 s1 tr | why w1 s1 tr]; cbn [outcome_trace] in Hq; cbn [snd].
    + rewrite <- (app_nil_r tr). apply (guarded_running_quiet tr Hq false []).
    + destruct why; cbn [snd];
        try (rewrite (guarded_running_quiet tr Hq); reflexivity).
      rewrite <- (app_nil_r tr). apply (guarded_running_quiet tr Hq false []).
  - unfold worker_trace.
    pose proof (worker_loop_no_seed bs bc bm e fuel 0%nat w
                  (worker_state oflags e s) []) as Hs.
    destruct (worker_split bs bc bm oflags e fuel w s) as [[_ ->] | [_ ->]];
      [reflexivity |].
    destruct (worker_loop bs bc bm e fuel 0 w (worker_state oflags e s) [])
      as [w1 s1 tr | why w1 s1 tr]; cbn [outcome_trace] in Hs; cbn [snd].
    + exact Hs.
    + destruct why; cbn [snd]; rewrite ?seed_count_app, Hs; reflexivity.
  - apply worker_running.
Qed.

(** ** The shared total *)

Lemma signal_count_app tr tr' :
  signal_count (tr ++ tr') = (signal_count tr + signal_count tr')%nat.
Proof.
  induction tr as [| ev tr IH]; [reflexivity |].
  destruct ev; cbn; rewrite ?IH; reflexivity.
Qed.

Lemma div_1000_succ t :
  0 <= t ->
  (t + 1) / 1000 = t / 1000 + (if (t + 1) mod 1000 =? 0 then 1 else 0).
Proof.
  intros Ht.
  pose proof (Z.div_mod t 1000 ltac:(lia)) as H1.
  pose proof (Z.mod_pos_bound t 1000 ltac:(lia)) as H2.
  pose proof (Z.div_mod (t + 1) 1000 ltac:(lia)) as H3.
  pose proof (Z.mod_pos_bound (t + 1) 1000 ltac:(lia)) as H4.
  destruct ((t + 1) mod 1000 =? 0) eqn:E.
  - apply Z.eqb_eq in E. lia.
  - apply Z.eqb_neq in E. lia.
Qed.

(** X8.  Running alone, a thread advances the shared total [tioc] by
    the number of operations it completed, modulo 2^32; and as long as
    the total does not wrap, it signals the condition variable once for
    every multiple of 1000 that the total reaches. *)
Theorem worker_advances_total (bs bc bm oflags : Z) (e : env) (fuel : nat)
    (w : world) (s : state) :
  is_u32 (tioc w) ->
  tioc (snd (fst (fst (worker bs bc bm oflags e fuel w s))))
  = u32 (tioc w + Z.of_nat (ok_ios (worker_trace (worker bs bc bm oflags e fuel w s))))
  /\ (tioc w + Z.of_nat (ok_ios (worker_trace (worker bs bc bm oflags e fuel w s)))
      < UINT_MOD ->
      Z.of_nat (signal_count (worker_trace (worker bs bc bm oflags e fuel w s)))
      = (tioc w + Z.of_nat (ok_ios (worker_trace (worker bs bc bm oflags e fuel w s))))
        / 1000 - tioc w / 1000).
Proof.
  intros Ht.
  set (good := fun (w' : world) (tr : list event) =>
         tioc w' = u32 (tioc w + Z.of_nat (ok_ios tr))
         /\ (tioc w + Z.of_nat (ok_ios tr) < UINT_MOD ->
             Z.of_nat (signal_count tr)
             = (tioc w + Z.of_nat (ok_ios tr)) / 1000 - tioc w / 1000)).
  assert (Hextend : forall w' tr tr',
            good w' tr -> ok_ios tr' = 0%nat -> signal_count tr' = 0%nat ->
            good w' (tr ++ tr')).
  { intros w' tr tr' [H1 H2] Hok Hsig. unfold good.
    rewrite ok_ios_app, signal_count_app, Hok, Hsig, !Nat.add_0_r. auto. }
  pose proof (worker_loop_rule bs bc bm e
                (fun _ w' _ tr => good w' tr) (fun _ w' _ tr => good w' tr)) as Hrule.
  cbv beta in Hrule. lapply Hrule; clear Hrule.
  - intros Hrule. unfold worker_trace.
    assert (H0 : good w []).
    { unfold good. cbn [ok_ios signal_count Z.of_nat]. rewrite Z.add_0_r.
      split; [symmetry; apply u32_small; exact Ht | lia]. }
    destruct (worker_split bs bc bm oflags e fuel w s) as [[_ ->] | [_ ->]].
    + cbn [fst snd]. apply (Hextend w [] _ H0); reflexivity.
    + specialize (Hrule fuel 0%nat w (worker_state oflags e s) [] H0).
      destruct (worker_loop bs bc bm e fuel 0 w (worker_state oflags e s) [])
        as [w1 s1 tr | why w1 s1 tr]; [exact Hrule |].
      destruct why; cbn [fst snd]; try exact Hrule;
        apply (Hextend w1 tr _ Hrule); reflexivity.
  - intros k w' s' tr' Hgood.
    destruct (negb (term_at e k =? 0)); [exact Hgood |].
    pose proof (call_posfn_frame bc w' s') as (_ & _ & _ & Ht1).
    destruct (call_posfn bc w' s') as [[[b |] w1] s1]; cbn [fst snd] in Ht1.
    2: { destruct Hgood as [H1 H2]. split; [congruence | exact H2]. }
    assert (Hgood1 : good w1 tr')
      by (destruct Hgood as [H1 H2]; split; [congruence | exact H2]).
    destruct (call_workfn bs e k s1 b) as [[wr r] |]; [| exact Hgood1].
    destruct (r <? 0) eqn:Er.
    + rewrite <- app_assoc. apply (Hextend w1 tr' _ Hgood1); cbn; rewrite ?Er; reflexivity.
    + assert (Hnext : good (fst (incc w1)) ((tr' ++ [EvIO wr b r]) ++ snd (incc w1))).
      { destruct Hgood1 as [H1 H2]. unfold good.
        assert (Hok : ok_ios ((tr' ++ [EvIO wr b r]) ++ snd (incc w1))
                      = S (ok_ios tr')).
        { rewrite !ok_ios_app. cbn. rewrite Er.
          destruct (incc_spec w1) as (_ & _ & _ & [-> | ->]); cbn; lia. }
        rewrite Hok. destruct (incc_spec w1) as (Hti & _ & _ & _).
        split.
        - rewrite Hti, H1, u32_succ. f_equal. lia.
        - intros Hlt. unfold is_u32 in Ht.
          assert (Hlt' : tioc w + Z.of_nat (ok_ios tr') < UINT_MOD) by lia.
          specialize (H2 Hlt').
          assert (Htw : tioc w1 = tioc w + Z.of_nat (ok_ios tr')).
          { rewrite H1. apply u32_small. unfold is_u32. lia. }
          replace (tioc w + Z.of_nat (S (ok_ios tr')))
            with (tioc w + Z.of_nat (ok_ios tr') + 1) by lia.
          rewrite div_1000_succ by lia.
          rewrite !signal_count_app. cbn [signal_count Nat.add].
          unfold incc. rewrite Htw.
          rewrite (u32_small (tioc w + Z.of_nat (ok_ios tr') + 1))
            by (unfold is_u32; lia).
          destruct ((tioc w + Z.of_nat (ok_ios tr') + 1) mod 1000 =? 0);
            cbn [snd signal_count]; lia. }
      destruct (negb (bm =? 0) && (bm <=? u32 (ioc s1 + 1))); exact Hnext.
Qed.

Lemma worker_advances_total_witness :
  tioc (snd (fst (fst (worker 8192 128 3 0 env_ok 9 (mkWorld 998 1 0) state_zero))))
  = u32 (998 + Z.of_nat (ok_ios (worker_trace
                (worker 8192 128 3 0 env_ok 9 (mkWorld 998 1 0) state_zero)))).
Proof.
  apply (worker_advances_total 8192 128 3 0 env_ok 9 (mkWorld 998 1 0) state_zero).
  unfold is_u32, UINT_MOD. cbn. lia.
Defined.

(** ** The order of the blocks of a linear thread *)

Lemma io_blocks_app tr tr' : io_blocks (tr ++ tr') = io_blocks tr ++ io_blocks tr'.
Proof.
  induction tr as [| ev tr IH]; [reflexivity |].
  destruct ev; cbn; rewrite ?IH; reflexivity.
Qed.

(** With the cursor between 0 and [bc], a call returns the cursor
    modulo [bc] and leaves the cursor one past that. *)
Lemma linpos_mod bc s :
  is_u32 bc -> 0 < bc -> 0 <= bn s <= bc ->
  fst (linpos bc s) = bn s mod bc
  /\ bn (snd (linpos bc s)) = bn s mod bc + 1
  /\ posfn (snd (linpos bc s)) = posfn s.
Proof.
  intros Hbc Hpos Hbn.
  destruct (Z.eq_dec (bn s) bc) as [Heq | Hne].
  - rewrite (linpos_rewind bc s) by lia.
    rewrite (linpos_below bc Hbc) by (cbn; lia).
    cbn. rewrite Heq, Z.mod_same by lia. auto.
  - rewrite (linpos_below bc Hbc) by lia. cbn.
    rewrite Z.mod_small by lia. auto.
Qed.

Lemma mod_succ bc c k :
  0 < bc -> c mod bc = Z.of_nat k mod bc ->
  0 <= c mod bc + 1 <= bc /\ (c mod bc + 1) mod bc = Z.of_nat (S k) mod bc.
Proof.
  intros Hpos Hc.
  pose proof (Z.mod_pos_bound c bc Hpos).
  split; [lia |].
  rewrite Hc, Z.add_mod_idemp_l by lia. f_equal. lia.
Qed.

(** X9.  From cursor 0 and for any number [n] of calls, the [j]-th call
    of the linear generator returns [j mod bc]. *)
Theorem linpos_nth_call (bc : Z) (s : state) (n : nat) :
  is_u32 bc -> 0 < bc -> bn s = 0 ->
  fst (linpos_calls bc n s) = map (fun j => Z.of_nat j mod bc) (seq 0 n).
Proof.
  intros Hbc Hpos Hs.
  assert (Hgen : forall n k s0,
            0 <= bn s0 <= bc -> bn s0 mod bc = Z.of_nat k mod bc ->
            fst (linpos_calls bc n s0)
            = map (fun j => Z.of_nat j mod bc) (seq k n)).
  { clear s Hs n. induction n as [| n IH]; intros k s0 Hb Hm; [reflexivity |].
    cbn [linpos_calls seq map].
    destruct (linpos_mod bc s0 Hbc Hpos Hb) as (Hv & Hn & _).
    destruct (linpos bc s0) as [b s1]. cbn [fst snd] in Hv, Hn.
    destruct (mod_succ bc (bn s0) k Hpos Hm) as [Hr Hm'].
    specialize (IH (S k) s1). rewrite Hn in IH. specialize (IH Hr Hm').
    destruct (linpos_calls bc n s1) as [l s2]. cbn [fst] in *.
    rewrite Hv, Hm, IH. reflexivity. }
  apply Hgen; rewrite Hs; [lia | reflexivity].
Qed.

Lemma linpos_nth_call_witness :
  fst (linpos_calls 3 5 state_zero) = map (fun j => Z.of_nat j mod 3) (seq 0 5).
Proof.
  apply (linpos_nth_call 3 state_zero 5).
  - unfold is_u32, UINT_MOD. lia.
  - lia.
  - reflexivity.
Defined.

(** X10.  A thread of a linear class whose cursor starts at 0 issues
    its transfers at the blocks 0, 1, ..., bc-1, 0, 1, ... in this
    order: its [j]-th transfer is at block [j mod bc], whether or not
    transfers fail or the thread is stopped. *)
Theorem linear_worker_visits_in_order (bs bc bm oflags : Z) (e : env) (fuel : nat)
    (w : world) (s : state) :
  is_u32 bc -> 0 < bc -> bn s = 0 -> Z.land (opi s) MFrnd = 0 ->
  io_blocks (worker_trace (worker bs bc bm oflags e fuel w s))
  = map (fun j => Z.of_nat j mod bc)
        (seq 0 (io_count (worker_trace (worker bs bc bm oflags e fuel w s)))).
Proof.
  intros Hbc Hpos Hbn Hlin.
  set (f := fun j => Z.of_nat j mod bc).
  pose proof (worker_loop_rule bs bc bm e
                (fun k _ s0 tr =>
                   posfn s0 = pf_linpos /\ 0 <= bn s0 <= bc
                   /\ bn s0 mod bc = Z.of_nat k mod bc
                   /\ io_count tr = k /\ io_blocks tr = map f (seq 0 k))
                (fun _ _ _ tr => io_blocks tr = map f (seq 0 (io_count tr))))
    as Hrule.
  cbv beta in Hrule. lapply Hrule; clear Hrule.
  - intros Hrule. unfold worker_trace.
    destruct (worker_split bs bc bm oflags e fuel w s) as [[_ ->] | [_ ->]];
      [reflexivity |].
    assert (H0 : posfn (worker_state oflags e s) = pf_linpos
                 /\ 0 <= bn (worker_state oflags e s) <= bc
                 /\ bn (worker_state oflags e s) mod bc = Z.of_nat 0 mod bc
                 /\ io_count [] = 0%nat /\ io_blocks [] = map f (seq 0 0)).
    { unfold worker_state. cbn [posfn bn set_fd set_fns].
      rewrite Hlin, Hbn. cbn. repeat split; lia. }
    specialize (Hrule fuel 0%nat w _ [] H0).
    destruct (worker_loop bs bc bm e fuel 0 w (worker_state oflags e s) [])
      as [w1 s1 tr | why w1 s1 tr]; cbn [snd].
    + destruct Hrule as (_ & _ & _ & Hc & Hb). rewrite Hc. exact Hb.
    + destruct why; cbn [snd]; try exact Hrule;
        rewrite io_blocks_app, io_count_app, Hrule; cbn;
        rewrite app_nil_r, Nat.add_0_r; reflexivity.
  - intros k w' s' tr' (Hp & Hb & Hm & Hc & Hbl).
    destruct (negb (term_at e k =? 0)); [rewrite Hc; exact Hbl |].
    unfold call_posfn. rewrite Hp.
    destruct (linpos_mod bc s' Hbc Hpos Hb) as (Hv & Hn & Hp1).
    destruct (linpos bc s') as [b s1]. cbn [fst snd] in Hv, Hn, Hp1.
    destruct (call_workfn bs e k s1 b) as [[wr r] |]; [| rewrite Hc; exact Hbl].
    destruct (mod_succ bc (bn s') k Hpos Hm) as [Hr Hm'].
    assert (Hc1 : io_count (tr' ++ [EvIO wr b r]) = S k)
      by (rewrite io_count_app, Hc; cbn; lia).
    assert (Hb1 : io_blocks (tr' ++ [EvIO wr b r]) = map f (seq 0 (S k))).
    { rewrite io_blocks_app, Hbl, seq_S, map_app. cbn. unfold f.
      rewrite Hv, Hm. reflexivity. }
    assert (Hinc : io_count (snd (incc w')) = 0%nat /\ io_blocks (snd (incc w')) = [])
      by (destruct (incc_spec w') as (_ & _ & _ & [-> | ->]); split; reflexivity).
    destruct Hinc as [Hi1 Hi2].
    destruct (r <? 0).
    + rewrite io_blocks_app, io_count_app, Hb1, Hc1. cbn.
      rewrite app_nil_r, Nat.add_0_r. reflexivity.
    + assert (Hc2 : io_count ((tr' ++ [EvIO wr b r]) ++ snd (incc w')) = S k)
        by (rewrite io_count_app, Hc1, Hi1; lia).
      assert (Hb2 : io_blocks ((tr' ++ [EvIO wr b r]) ++ snd (incc w'))
                    = map f (seq 0 (S k)))
        by (rewrite io_blocks_app, Hb1, Hi2, app_nil_r; reflexivity).
      destruct (negb (bm =? 0) && (bm <=? u32 (ioc s1 + 1))).
      * rewrite Hc2. exact Hb2.
      * cbn [posfn bn set_ioc]. rewrite Hn.
        split; [congruence |]. split; [exact Hr |]. split; [exact Hm' |].
        split; [exact Hc2 | exact Hb2].
Qed.

Lemma linear_worker_visits_in_order_witness :
  io_blocks (worker_trace (worker 8192 3 5 0 env_ok 9 (mkWorld 0 1 0) state_zero))
  = map (fun j => Z.of_nat j mod 3)
        (seq 0 (io_count (worker_trace
                  (worker 8192 3 5 0 env_ok 9 (mkWorld 0 1 0) state_zero)))).
Proof.
  apply (linear_worker_visits_in_order 8192 3 5 0 env_ok 9 (mkWorld 0 1 0) state_zero).
  - unfold is_u32, UINT_MOD. lia.
  - lia.
  - reflexivity.
  - reflexivity.
Defined.

(** X11.  With a block count that is not zero, one call of either
    generator returns a block number below the block count: the linear
    one from any cursor, the random one from any state of the random
    source. *)
Theorem generators_in_range (bc : Z) (w : world) (s : state) :
  is_u32 bc -> 0 < bc -> 0 <= bn s ->
  0 <= fst (linpos bc s) < bc
  /\ exists b, fst (fst (randpos bc w s)) = Some b /\ 0 <= b < bc.
Proof.
  intros Hbc Hpos Hbn. split.
  - apply (linpos_in_range bc s Hbc Hpos Hbn).
  - apply (randpos_in_range bc w s Hpos).
Qed.

Lemma generators_in_range_witness :
  0 <= fst (linpos 128 (set_bn 4000 state_zero)) < 128
  /\ exists b, fst (fst (randpos 128 (mkWorld 0 1 (Rand48.srand48 SEED)) state_zero))
               = Some b /\ 0 <= b < 128.
Proof.
  apply (generators_in_range 128 (mkWorld 0 1 (Rand48.srand48 SEED))
           (set_bn 4000 state_zero)).
  - unfold is_u32, UINT_MOD. lia.
  - lia.
  - cbn. lia.
Defined.

(** ** The counts of [pst], class by class *)

Lemma class_ioc_cons j s l :
  class_ioc j (s :: l)
  = if opi s =? j then ioc s + class_ioc j l else class_ioc j l.
Proof. unfold class_ioc. cbn [List.filter]. destruct (opi s =? j); reflexivity. Qed.

Lemma pst_fold_class j l :
  forall (c : list Z) v,
    0 <= j -> c !! Z.to_nat j = Some v -> is_u32 v ->
    Forall (fun s => 0 <= opi s < 4) l ->
    fold_left (fun (c : list Z) s =>
                 alter (fun v => u32 (v + ioc s)) (Z.to_nat (opi s)) c) l c
      !! Z.to_nat j
    = Some (u32 (v + class_ioc j l)).
Proof.
  induction l as [| s l IH]; intros c v Hj Hc Hv Hall.
  - cbn [fold_left]. rewrite Hc. unfold class_ioc. cbn.
    rewrite Z.add_0_r, u32_small by exact Hv. reflexivity.
  - inversion Hall as [| ? ? Hs Hl]; subst.
    cbn [fold_left]. rewrite class_ioc_cons.
    destruct (opi s =? j) eqn:E.
    + apply Z.eqb_eq in E.
      rewrite (IH _ (u32 (v + ioc s)) Hj); [| | apply u32_range | exact Hl].
      * rewrite u32_add_l. f_equal. f_equal. lia.
      * rewrite E, list_lookup_alter_eq, Hc. reflexivity.
    + apply Z.eqb_neq in E.
      apply (IH _ v Hj); [| exact Hv | exact Hl].
      rewrite list_lookup_alter_ne by lia. exact Hc.
Qed.

(** X12.  For each of the four classes [j], the count that [pst]
    accumulates in [c[j]] is the sum, modulo 2^32, of the counters of
    the threads of that class among the first [ntt] states. *)
Theorem pst_counts_per_class (ntt : Z) (states : list state) (j : Z) :
  Forall (fun s => 0 <= opi s < 4) states -> 0 <= j < 4 ->
  pst_counts ntt states !! Z.to_nat j
  = Some (u32 (class_ioc j (take (Z.to_nat ntt) states))).
Proof.
  intros Hall Hj. unfold pst_counts.
  rewrite (pst_fold_class j _ _ 0); [reflexivity | lia | | | apply Forall_take; exact Hall].
  - assert (Hcase : j = 0 \/ j = 1 \/ j = 2 \/ j = 3) by lia.
    destruct Hcase as [-> | [-> | [-> | ->]]]; reflexivity.
  - unfold is_u32, UINT_MOD. lia.
Qed.

Lemma pst_counts_per_class_witness :
  pst_counts 3 [mkState 3 5 wf_wreader pf_linpos 0 0 5;
                mkState 4 7 wf_wwriter pf_randpos 3 0 0;
                mkState 5 9 wf_wreader pf_linpos 0 1 9] !! Z.to_nat 0
  = Some (u32 (class_ioc 0 (take (Z.to_nat 3)
                [mkState 3 5 wf_wreader pf_linpos 0 0 5;
                 mkState 4 7 wf_wwriter pf_randpos 3 0 0;
                 mkState 5 9 wf_wreader pf_linpos 0 1 9]))).
Proof.
  apply (pst_counts_per_class 3).
  - repeat constructor; cbn; lia.
  - lia.
Defined.

(** ** The text of the report *)

Lemma append_assoc (a b c : string) :
  String.append (String.append a b) c = String.append a (String.append b c).
Proof. induction a as [| ch a IH]; cbn; [reflexivity | rewrite IH; reflexivity]. Qed.

Lemma crs_snoc n : String.append (crs n) CR = crs (S n).
Proof.
  induction n as [| n IH]; [reflexivity |].
  cbn [crs]. rewrite append_assoc, IH. reflexivity.
Qed.

(** X13.  Because [pst] writes nothing, all that the reporting loop and
    the end of [main] write is carriage returns on the standard error,
    one per wake-up and one more at the end, and a single newline on
    the standard output. *)
Theorem report_is_carriage_returns (n : nat) (ntt : Z) (states : list state)
    (io : streams) :
  serr (main_finish ntt states (report_loop n ntt states io))
  = String.append (serr io) (crs (S n))
  /\ sout (main_finish ntt states (report_loop n ntt states io))
     = String.append (sout io) NL.
Proof.
  assert (Hloop : forall n io0,
            report_loop n ntt states io0
            = mkStreams (sout io0) (String.append (serr io0) (crs n))).
  { clear n io. induction n as [| n IH]; intros io0.
    - cbn. rewrite append_empty. destruct io0; reflexivity.
    - cbn [report_loop]. rewrite IH. unfold report_once, pst. cbn [sout serr].
      rewrite append_empty, append_assoc. reflexivity. }
  rewrite Hloop. unfold main_finish, pst. cbn [sout serr].
  rewrite append_empty, append_assoc, crs_snoc. split; reflexivity.
Qed.

(** ** The block count *)

(** X14.  When [-n] gives no block count and the block size is not
    zero, the derived count is the number of whole blocks of the target,
    reduced modulo 2^32: all its blocks lie within the target, and when
    the number of whole blocks is below 2^32 no further whole block
    fits.  A count given by [-n] is taken as it is, and a zero block
    size with no [-n] makes the division undefined. *)
Theorem derived_block_count_fits (o : osenv) (bs : Z) :
  0 < bs ->
  (exists bc,
     derive_bc o bs 0 = Some bc
     /\ is_u32 bc
     /\ bc * bs <= target_size o
     /\ (target_size o / bs < UINT_MOD -> target_size o < (bc + 1) * bs))
  /\ (forall n, n <> 0 -> derive_bc o bs n = Some n)
  /\ derive_bc o 0 0 = None.
Proof.
  intros Hbs. split; [| split].
  - unfold derive_bc. cbn [Z.eqb]. fold (target_size o).
    destruct (bs =? 0) eqn:E0; [apply Z.eqb_eq in E0; lia |].
    eexists. split; [reflexivity |].
    assert (Hsz : 0 <= target_size o).
    { unfold target_size, u64.
      destruct (os_st_size o =? 0); apply Z.mod_pos_bound; lia. }
    assert (Hq : 0 <= target_size o / bs) by (apply Z.div_pos; lia).
    pose proof (Z.mul_div_le (target_size o) bs Hbs) as Hmul.
    split; [apply u32_range |]. split.
    + assert (Hle : u32 (target_size o / bs) <= target_size o / bs)
        by (unfold u32, UINT_MOD; apply Z.mod_le; lia).
      nia.
    + intros Hlt. rewrite u32_small by (unfold is_u32; lia).
      pose proof (Z.mul_succ_div_gt (target_size o) bs Hbs). lia.
  - intros n Hn. unfold derive_bc.
    destruct (n =? 0) eqn:E; [apply Z.eqb_eq in E; contradiction | reflexivity].
  - unfold derive_bc. cbn. reflexivity.
Qed.

Lemma derived_block_count_fits_witness :
  exists bc,
    derive_bc (mkOs (fun _ => 3) 1048577 0 0 0 0) 8192 0 = Some bc
    /\ is_u32 bc
    /\ bc * 8192 <= target_size (mkOs (fun _ => 3) 1048577 0 0 0 0)
    /\ (target_size (mkOs (fun _ => 3) 1048577 0 0 0 0) / 8192 < UINT_MOD ->
        target_size (mkOs (fun _ => 3) 1048577 0 0 0 0) < (bc + 1) * 8192).
Proof.
  apply (derived_block_count_fits (mkOs (fun _ => 3) 1048577 0 0 0 0) 8192).
  lia.
Defined.

(** ** How [main] ends before any thread starts *)

Lemma parse_opts_app pre post g :
  parse_opts (pre ++ post) g
  = match parse_opts pre g with
    | inl g' => parse_opts post g'
    | inr st => inr st
    end.
Proof.
  revert g. induction pre as [| x pre IH]; intros g; [reflexivity |].
  cbn [app parse_opts]. destruct (parse_opt x g); [apply IH | reflexivity].
Qed.

Lemma parse_opts_no_exit os :
  forall g, Forall (fun x => is_exit_opt x = false) os ->
            exists g', parse_opts os g = inl g'.
Proof.
  induction os as [| x os IH]; intros g Hall; [eexists; reflexivity |].
  inversion Hall as [| ? ? Hx Hos]; subst. cbn [parse_opts].
  destruct x; try discriminate; cbn [parse_opt]; apply IH; exact Hos.
Qed.

Lemma parse_opts_status os :
  forall g st, parse_opts os g = inr st ->
               (st = 0 /\ In Opt_h os) \/ (st = 1 /\ In Opt_other os).
Proof.
  induction os as [| x os IH]; intros g st Hp; [discriminate |].
  cbn [parse_opts] in Hp.
  destruct (parse_opt x g) as [g' | st'] eqn:E.
  - destruct (IH g' st Hp) as [[H1 H2] | [H1 H2]]; [left | right];
      (split; [exact H1 | right; exact H2]).
  - injection Hp as <-.
    destruct x; cbn [parse_opt] in E; try discriminate; injection E as <-;
      [left | right]; (split; [reflexivity | left; reflexivity]).
Qed.

(** X15.  The ways [main] ends before it creates a thread.  [-h]
    reached by the option loop ends it with status 0, whatever follows
    and whether or not a target is named; an unknown option ends it with
    status 1.  Otherwise a number of arguments other than one gives
    status 1, and so does a target that cannot be opened, through
    [edie].  No other status is possible, and status 0 needs [-h]. *)
Theorem main_start_exits :
  (forall pre post args o,
     Forall (fun x => is_exit_opt x = false) pre ->
     main_start (pre ++ Opt_h :: post) args o = MainExit 0 [])
  /\ (forall pre post args o,
        Forall (fun x => is_exit_opt x = false) pre ->
        main_start (pre ++ Opt_other :: post) args o = MainExit 1 [])
  /\ (forall os args o,
        Forall (fun x => is_exit_opt x = false) os -> length args <> 1%nat ->
        main_start os args o = MainExit 1 [])
  /\ (forall os fn o,
        Forall (fun x => is_exit_opt x = false) os ->
        (forall fl, os_open o fl < 0) ->
        main_start os [fn] o = MainExit 1 edie)
  /\ (forall os args o st tr,
        main_start os args o = MainExit st tr ->
        (st = 0 /\ tr = [] /\ In Opt_h os) \/ st = 1).
Proof.
  split; [| split; [| split; [| split]]].
  - intros pre post args o Hpre. unfold main_start.
    rewrite parse_opts_app.
    destruct (parse_opts_no_exit pre globals_init Hpre) as [g' ->]. reflexivity.
  - intros pre post args o Hpre. unfold main_start.
    rewrite parse_opts_app.
    destruct (parse_opts_no_exit pre globals_init Hpre) as [g' ->]. reflexivity.
  - intros os args o Hos Hlen. unfold main_start.
    destruct (parse_opts_no_exit os globals_init Hos) as [g' ->].
    destruct args as [| fn [| ? ?]]; [reflexivity | cbn in Hlen; lia | reflexivity].
  - intros os fn o Hos Hopen. unfold main_start.
    destruct (parse_opts_no_exit os globals_init Hos) as [g' ->].
    match goal with |- context [os_open o ?fl <? 0] =>
      pose proof (Hopen fl) as Hneg; destruct (os_open o fl <? 0) eqn:E end;
      [reflexivity | apply Z.ltb_ge in E; lia].
  - intros os args o st tr Hm. unfold main_start in Hm.
    destruct (parse_opts os globals_init) as [g |] eqn:Ep.
    + right.
      destruct args as [| fn [| ? ?]]; try (injection Hm as <- _; reflexivity).
      match type of Hm with context [if ?c <? 0 then _ else _] =>
        destruct (c <? 0) end; [injection Hm as <- _; reflexivity |].
      match type of Hm with context [derive_bc ?a ?b ?c] =>
        destruct (derive_bc a b c) end; [| discriminate].
      match type of Hm with context [main_seed ?a ?b] =>
        destruct (main_seed a b) end. discriminate.
    + injection Hm as <- <-.
      destruct (parse_opts_status os _ _ Ep) as [[-> Hin] | [-> _]];
        [left; auto | right; reflexivity].
Qed.

Lemma main_start_exits_witness :
  main_start [Opt_d; Opt_h; Opt_other] [] (mkOs (fun _ => -1) 0 0 0 0 0) = MainExit 0 [].
Proof.
  destruct main_start_exits as (H & _).
  apply (H [Opt_d] [Opt_other]).
  repeat constructor.
Defined.

(** ** The threads [main] creates *)

Lemma parse_opts_no_class os :
  forall g g',
    Forall (fun x => is_class_opt x = false) os ->
    parse_opts os g = inl g' -> g_nt g' = g_nt g.
Proof.
  induction os as [| x os IH]; intros g g' Hall Hp.
  - cbn in Hp. injection Hp as <-. reflexivity.
  - inversion Hall as [| ? ? Hx Hos]; subst. cbn [parse_opts] in Hp.
    destruct (parse_opt x g) as [g1 |] eqn:E; [| discriminate].
    rewrite (IH g1 g' Hos Hp).
    destruct x; try discriminate; cbn [parse_opt] in E; try discriminate;
      injection E as <-; reflexivity.
Qed.

(** X16.  When none of [-r], [-R], [-w], [-W] is given, [main] runs
    exactly one thread, of the linear-read class, and sets [running]
    to 1. *)
Theorem main_default_thread (os : list opt) (args : list string) (o : osenv)
    (g : globals) (ntt : Z) (w : world) (states : list state) (tr : list event) :
  Forall (fun x => is_class_opt x = false) os ->
  main_start os args o = Started g ntt w states tr ->
  ntt = 1 /\ running w = 1
  /\ states = [mkState 0 0 wf_null pf_null LinRd 0 0]
  /\ g_nt g = [1; 0; 0; 0]
  /\ tr = [].
Proof.
  intros Hos Hm.
  destruct (main_start_started _ _ _ _ _ _ _ _ Hm)
    as (g0 & Hp & Hnt & Hntt & Hw & Htr & Hst & _).
  pose proof (parse_opts_no_class os _ _ Hos Hp) as Hnt0.
  cbn [g_nt globals_init] in Hnt0. rewrite Hnt0 in Hnt, Hntt.
  change (u32 (nt_sum [0; 0; 0; 0]) =? 0) with true in Hnt, Hntt.
  change (<[0%nat := 1]> [0; 0; 0; 0]) with [1; 0; 0; 0] in Hnt.
  rewrite Hnt in Hst, Hw, Htr.
  subst ntt w states tr. repeat split; try reflexivity. exact Hnt.
Qed.

Lemma main_default_thread_witness :
  exists g w, main_start [Opt_d; Opt_i "5"] ["target"%string]
                (mkOs (fun _ => 3) 1048576 0 0 0 0)
              = Started g 1 w [mkState 0 0 wf_null pf_null LinRd 0 0] []
              /\ running w = 1.
Proof.
  destruct (main_start [Opt_d; Opt_i "5"] ["target"%string]
              (mkOs (fun _ => 3) 1048576 0 0 0 0))
    as [g ntt w states tr | |] eqn:E; try discriminate.
  destruct (main_default_thread [Opt_d; Opt_i "5"] ["target"%string]
              (mkOs (fun _ => 3) 1048576 0 0 0 0) g ntt w states tr)
    as (-> & Hr & -> & _ & ->).
  - repeat constructor.
  - exact E.
  - exists g, w. split; [reflexivity | exact Hr].
Defined.

Lemma filter_spawn_class j j' n :
  List.filter (fun s => opi s =? j) (spawn_class j' n)
  = if j' =? j then spawn_class j' n else [].
Proof.
  unfold spawn_class.
  induction (seq 0 (Z.to_nat n)) as [| k l IH]; cbn [map List.filter opi].
  - destruct (j' =? j); reflexivity.
  - rewrite IH. destruct (j' =? j); reflexivity.
Qed.

(** The states of class [j] that the creation loops write, when they
    lie inside the array. *)
Lemma spawn_filter_class (nt : list Z) (j : Z) :
  0 <= j < 4 ->
  List.filter (fun s => opi s =? j) (spawn nt) = spawn_class j (nt_at nt j).
Proof.
  intros Hj. unfold spawn. cbn [flat_map].
  rewrite !List.filter_app, !filter_spawn_class. cbn [List.filter].
  assert (Hcase : j = 0 \/ j = 1 \/ j = 2 \/ j = 3) by lia.
  destruct Hcase as [-> | [-> | [-> | ->]]]; cbn [Z.eqb Pos.eqb];
    rewrite ?app_nil_r; reflexivity.
Qed.

(** Placing the states leaves their class and their number alone. *)
Lemma place_from_keys k ntt heap l :
  map (fun s => (opi s, i s)) (place_from k ntt heap l)
  = map (fun s => (opi s, i s)) l.
Proof.
  revert k. induction l as [| s l IH]; intros k; [reflexivity |].
  cbn [place_from map]. rewrite IH.
  destruct (Z.of_nat k <? ntt); reflexivity.
Qed.

Lemma filter_class_keys j (l : list state) :
  forall l' : list state,
    map (fun s => (opi s, i s)) l = map (fun s => (opi s, i s)) l' ->
    map i (List.filter (fun s => opi s =? j) l)
    = map i (List.filter (fun s => opi s =? j) l').
Proof.
  induction l as [| s l IH]; intros [| s' l'] H; try discriminate; [reflexivity |].
  cbn [map] in H. injection H as Ho Hi Hl.
  cbn [List.filter]. rewrite Ho.
  destruct (opi s' =? j); cbn [map]; rewrite ?Hi, (IH l' Hl); reflexivity.
Qed.

(** The elements inside the array keep what [spawn] gave them. *)
Lemma place_from_take (P : state -> Prop) k ntt heap l :
  Forall P l ->
  Forall P (take (Z.to_nat ntt - k) (place_from k ntt heap l)).
Proof.
  intros Hl. revert k. induction Hl as [| s l Hs Hl IH]; intros k.
  - cbn. rewrite take_nil. apply List.Forall_nil.
  - cbn [place_from].
    destruct (Z.to_nat ntt - k)%nat as [| n] eqn:En; [apply List.Forall_nil |].
    cbn [take]. apply List.Forall_cons.
    + destruct (Z.of_nat k <? ntt) eqn:E; [exact Hs | apply Z.ltb_ge in E; lia].
    + replace n with (Z.to_nat ntt - S k)%nat by lia. apply IH.
Qed.

(** X17.  The creation loops of [main] start, for each class [j] from 0
    to 3, as many threads as [nt[j]] says, numbered 0, 1, ... in their
    field [i]; and the states that lie inside the array of [ntt]
    elements that [calloc] returned have their counters at zero.
    (Nothing is said of a state past the array, which a wrapped thread
    count can hand out.) *)
Theorem started_states_per_class (os : list opt) (args : list string) (o : osenv)
    (g : globals) (ntt : Z) (w : world) (states : list state) (tr : list event)
    (j : Z) :
  main_start os args o = Started g ntt w states tr -> 0 <= j < 4 ->
  length (List.filter (fun s => opi s =? j) states) = Z.to_nat (nt_at (g_nt g) j)
  /\ map i (List.filter (fun s => opi s =? j) states)
     = map Z.of_nat (seq 0 (Z.to_nat (nt_at (g_nt g) j)))
  /\ Forall (fun s => ioc s = 0 /\ bn s = 0) (take (Z.to_nat ntt) states).
Proof.
  intros Hm Hj.
  destruct (main_start_started _ _ _ _ _ _ _ _ Hm) as (g0 & _ & _ & _ & _ & _ & Hst & _).
  assert (Hi : map i (List.filter (fun s => opi s =? j) states)
               = map Z.of_nat (seq 0 (Z.to_nat (nt_at (g_nt g) j)))).
  { rewrite Hst.
    rewrite (filter_class_keys j _ (spawn (g_nt g)))
      by (unfold place; apply place_from_keys).
    rewrite (spawn_filter_class _ j Hj). unfold spawn_class.
    rewrite map_map. cbn [i]. reflexivity. }
  split; [| split].
  - rewrite <- (length_map i), Hi, length_map, length_seq. reflexivity.
  - exact Hi.
  - rewrite Hst. unfold place.
    replace (Z.to_nat ntt) with (Z.to_nat ntt - 0)%nat by lia.
    apply place_from_take.
    eapply Forall_impl; [apply spawn_classes |].
    intros s (_ & H1 & H2). auto.
Qed.

Lemma started_states_per_class_witness :
  exists g w states tr,
    main_start [Opt_r (Some "2"%string); Opt_W (Some "3"%string)] ["target"%string]
      (mkOs (fun _ => 3) 1048576 0 0 0 0) = Started g 5 w states tr
    /\ length (List.filter (fun s => opi s =? 3) states) = 3%nat
    /\ Forall (fun s => ioc s = 0 /\ bn s = 0) (take 5 states).
Proof.
  destruct (main_start [Opt_r (Some "2"%string); Opt_W (Some "3"%string)]
              ["target"%string] (mkOs (fun _ => 3) 1048576 0 0 0 0))
    as [g ntt w states tr | |] eqn:E; try discriminate.
  destruct (started_states_per_class
              [Opt_r (Some "2"%string); Opt_W (Some "3"%string)] ["target"%string]
              (mkOs (fun _ => 3) 1048576 0 0 0 0) g ntt w states tr 3 E)
    as (H1 & _ & H3); [lia |].
  assert (Hntt : ntt = 5) by (vm_compute in E; congruence).
  assert (Hnt : nt_at (g_nt g) 3 = 3) by (vm_compute in E; injection E as <- _ _ _ _; reflexivity).
  subst ntt. rewrite Hnt in H1.
  exists g, w, states, tr. split; [reflexivity |]. split; [exact H1 | exact H3].
Defined.

(** * The CPU load program *)

(** X18.  [time_elapsed] returns the difference between the counter
    value just read and the earlier one, as 64-bit numbers, modulo 2^64:
    the borrow from the low halves is carried into the high halves. *)
Theorem time_elapsed_is_difference (nhigh nlow ohigh olow : Z) :
  is_u32 nhigh -> is_u32 nlow -> is_u32 ohigh -> is_u32 olow ->
  CpuUse.time_elapsed nhigh nlow ohigh olow
  = u64 (CpuUse.tsc nhigh nlow - CpuUse.tsc ohigh olow).
Proof.
  unfold is_u32, UINT_MOD. intros Hnh Hnl Hoh Hol.
  unfold CpuUse.time_elapsed, CpuUse.tsc, u64, u32, UINT_MOD.
  assert (Hmod : forall a m r q, 0 <= r < m -> a = m * q + r -> a mod m = r).
  { intros a m r q Hr Ha. symmetry. apply (Z.mod_unique a m q r); [left; exact Hr | exact Ha]. }
  destruct (Z.lt_ge_cases nlow olow) as [Hlo | Hlo];
    destruct (Z.lt_ge_cases nhigh ohigh) as [Hhi | Hhi].
  - rewrite (Hmod (nlow - olow) (2 ^ 32) (nlow - olow + 2 ^ 32) (-1)) by lia.
    destruct (nlow <? nlow - olow + 2 ^ 32) eqn:E; [| apply Z.ltb_ge in E; lia].
    rewrite (Hmod (nhigh - ohigh) (2 ^ 32) (nhigh - ohigh + 2 ^ 32) (-1)) by lia.
    rewrite (Hmod (nhigh - ohigh + 2 ^ 32 - 1) (2 ^ 32) (nhigh - ohigh + 2 ^ 32 - 1) 0) by lia.
    rewrite (Z.mod_small ((nhigh - ohigh + 2 ^ 32 - 1) * 2 ^ 30)) by lia.
    rewrite (Z.mod_small ((nhigh - ohigh + 2 ^ 32 - 1) * 2 ^ 30 * 4)) by lia.
    rewrite Z.mod_small by lia.
    symmetry. apply (Hmod _ _ _ (-1)); lia.
  - rewrite (Hmod (nlow - olow) (2 ^ 32) (nlow - olow + 2 ^ 32) (-1)) by lia.
    destruct (nlow <? nlow - olow + 2 ^ 32) eqn:E; [| apply Z.ltb_ge in E; lia].
    rewrite (Z.mod_small (nhigh - ohigh)) by lia.
    destruct (Z.eq_dec nhigh ohigh) as [Heq | Hne].
    + rewrite (Hmod (nhigh - ohigh - 1) (2 ^ 32) (2 ^ 32 - 1) (-1)) by lia.
      rewrite (Z.mod_small ((2 ^ 32 - 1) * 2 ^ 30)) by lia.
      rewrite (Z.mod_small ((2 ^ 32 - 1) * 2 ^ 30 * 4)) by lia.
      rewrite Z.mod_small by lia.
      symmetry. apply (Hmod _ _ _ (-1)); lia.
    + rewrite (Z.mod_small (nhigh - ohigh - 1)) by lia.
      rewrite (Z.mod_small ((nhigh - ohigh - 1) * 2 ^ 30)) by lia.
      rewrite (Z.mod_small ((nhigh - ohigh - 1) * 2 ^ 30 * 4)) by lia.
      rewrite Z.mod_small by lia.
      symmetry. apply (Hmod _ _ _ 0); lia.
  - rewrite (Z.mod_small (nlow - olow)) by lia.
    destruct (nlow <? nlow - olow) eqn:E; [apply Z.ltb_lt in E; lia |].
    rewrite (Hmod (nhigh - ohigh) (2 ^ 32) (nhigh - ohigh + 2 ^ 32) (-1)) by lia.
    rewrite Z.sub_0_r.
    rewrite (Z.mod_small (nhigh - ohigh + 2 ^ 32)) by lia.
    rewrite (Z.mod_small ((nhigh - ohigh + 2 ^ 32) * 2 ^ 30)) by lia.
    rewrite (Z.mod_small ((nhigh - ohigh + 2 ^ 32) * 2 ^ 30 * 4)) by lia.
    rewrite Z.mod_small by lia.
    symmetry. apply (Hmod _ _ _ (-1)); lia.
  - rewrite (Z.mod_small (nlow - olow)) by lia.
    destruct (nlow <? nlow - olow) eqn:E; [apply Z.ltb_lt in E; lia |].
    rewrite (Z.mod_small (nhigh - ohigh)) by lia.
    rewrite Z.sub_0_r.
    rewrite (Z.mod_small (nhigh - ohigh)) by lia.
    rewrite (Z.mod_small ((nhigh - ohigh) * 2 ^ 30)) by lia.
    rewrite (Z.mod_small ((nhigh - ohigh) * 2 ^ 30 * 4)) by lia.
    rewrite Z.mod_small by lia.
    symmetry. apply (Hmod _ _ _ 0); lia.
Qed.

Lemma time_elapsed_is_difference_witness :
  CpuUse.time_elapsed 5 3 4 4294967295 = u64 (CpuUse.tsc 5 3 - CpuUse.tsc 4 4294967295).
Proof.
  apply (time_elapsed_is_difference 5 3 4 4294967295);
    unfold is_u32, UINT_MOD; lia.
Defined.

Lemma use_cpu_loop_idle e fuel use :
  forall high low k slept,
    CpuUse.use_cpu_loop e fuel use 0 high low k slept = CpuUse.CpuLooping k slept.
Proof.
  induction fuel as [| fuel IH]; intros high low k slept; [reflexivity |].
  cbn [CpuUse.use_cpu_loop Z.eqb]. apply IH.
Qed.

Lemma use_cpu_loop_sleeps e fuel use ut :
  forall high low k slept,
    Forall (fun el => use <= el) slept ->
    Forall (fun el => use <= el)
      (CpuUse.outcome_slept (CpuUse.use_cpu_loop e fuel use ut high low k slept))
    /\ (forall k' s,
          CpuUse.use_cpu_loop e fuel use ut high low k slept = CpuUse.CpuBroke k' s ->
          exists s0 el, s = s0 ++ [el]
                        /\ CpuUse.usleep_ret e (length s0) <> 0).
Proof.
  induction fuel as [| fuel IH]; intros high low k slept Hs.
  - cbn. split; [exact Hs | discriminate].
  - cbn [CpuUse.use_cpu_loop].
    destruct (ut =? 0); [apply IH; exact Hs |].
    destruct (CpuUse.rdtsc e k) as [nh nl].
    destruct (use <=? CpuUse.time_elapsed nh nl high low) eqn:El;
      [| apply IH; exact Hs].
    apply Z.leb_le in El.
    assert (Hs' : Forall (fun el => use <= el)
                    (slept ++ [CpuUse.time_elapsed nh nl high low]))
      by (apply Forall_app_2;
          [exact Hs | apply List.Forall_cons; [exact El | apply List.Forall_nil]]).
    destruct (CpuUse.usleep_ret e (length slept) =? 0) eqn:Eu; cbn [negb].
    + destruct (CpuUse.rdtsc e (S k)) as [h' l']. apply IH. exact Hs'.
    + apply Z.eqb_neq in Eu. cbn [CpuUse.outcome_slept].
      split; [exact Hs' |].
      intros k' s Heq. injection Heq as _ <-. eauto.
Qed.

(** X19.  The load loop calls [usleep] only when at least [use] counter
    increments have elapsed since the counter was last read after a
    sleep, and it ends only when a call of [usleep] fails. *)
Theorem use_cpu_sleeps_after_use (UL : Z) (e : CpuUse.cpu_env) (fuel : nat)
    (usage window mhz : Z) :
  Forall (fun el => CpuUse.use_ticks usage window mhz <= el)
    (CpuUse.outcome_slept (CpuUse.use_cpu UL e fuel usage window mhz))
  /\ (forall k s,
        CpuUse.use_cpu UL e fuel usage window mhz = CpuUse.CpuBroke k s ->
        exists s0 el, s = s0 ++ [el]
                      /\ CpuUse.usleep_ret e (length s0) <> 0).
Proof.
  unfold CpuUse.use_cpu. destruct (CpuUse.rdtsc e 0) as [high low].
  apply use_cpu_loop_sleeps. apply List.Forall_nil.
Qed.

(** X20.  A usage above 100 ends the program with status -1 before the
    loop starts.  At a usage of exactly 100 the sleep time is zero, and
    the loop then never sleeps and never reads the counter again,
    however long it runs. *)
Theorem full_load_never_sleeps (UL : Z) (e : CpuUse.cpu_env) (fuel : nat)
    (usage window mhz : Z) :
  0 < UL ->
  (100 < usage -> CpuUse.run UL e fuel usage window mhz = inl (-1))
  /\ CpuUse.run UL e fuel 100 window mhz = inr (CpuUse.CpuLooping 1 []).
Proof.
  intros HUL. split.
  - intros Hu. unfold CpuUse.run.
    destruct (100 <? usage) eqn:E; [reflexivity | apply Z.ltb_ge in E; lia].
  - unfold CpuUse.run, CpuUse.use_cpu. change (100 <? 100) with false. cbv iota.
    assert (Hut : CpuUse.usleep_time UL 100 window = 0).
    { unfold CpuUse.usleep_time. change (100 - 100) with 0.
      rewrite Z.mod_0_l by lia. replace (0 * window) with 0 by lia.
      rewrite ?Z.mod_0_l by lia. reflexivity. }
    rewrite Hut. destruct (CpuUse.rdtsc e 0) as [high low].
    rewrite use_cpu_loop_idle. reflexivity.
Qed.

Lemma full_load_never_sleeps_witness :
  CpuUse.run (2 ^ 64) (CpuUse.mkCpuEnv (fun k => (0, Z.of_nat k)) (fun _ => 0))
    50 100 1000000 2000
  = inr (CpuUse.CpuLooping 1 []).
Proof.
  apply (full_load_never_sleeps (2 ^ 64)
           (CpuUse.mkCpuEnv (fun k => (0, Z.of_nat k)) (fun _ => 0)) 50 100 1000000 2000).
  lia.
Defined.

(** * The open flags *)

Lemma lor_bits_eq a b :
  (forall n, 0 <= n -> Z.testbit a n = Z.testbit b n) -> a = b.
Proof. apply Z.bits_inj'. Qed.

Lemma parse_opts_flags os :
  forall g0 g,
    parse_opts os g0 = inl g ->
    g_oflags g = Z.lor (g_oflags g0) (flags_of os).
Proof.
  induction os as [| x os IH]; intros g0 g Hp.
  - cbn in Hp. injection Hp as <-. unfold flags_of. cbn.
    rewrite Z.lor_0_r. reflexivity.
  - cbn [parse_opts] in Hp.
    destruct (parse_opt x g0) as [g1 |] eqn:E; [| discriminate].
    rewrite (IH g1 g Hp). unfold flags_of. cbn [existsb].
    destruct x; cbn [parse_opt] in E; try discriminate; injection E as <-;
      cbn [g_oflags set_nt is_opt_d is_opt_s orb]; try reflexivity.
    + destruct (existsb is_opt_d os), (existsb is_opt_s os);
        apply lor_bits_eq; intros n Hn; rewrite ?Z.lor_spec, ?Z.bits_0;
        repeat match goal with
               | |- context [Z.testbit ?v n] => destruct (Z.testbit v n)
               end; reflexivity.
    + destruct (existsb is_opt_d os), (existsb is_opt_s os);
        apply lor_bits_eq; intros n Hn; rewrite ?Z.lor_spec, ?Z.bits_0;
        repeat match goal with
               | |- context [Z.testbit ?v n] => destruct (Z.testbit v n)
               end; reflexivity.
Qed.

(** X21.  The open flags after the option loop are [O_DIRECT] if [-d]
    occurs among the options, or-ed with [O_SYNC] if [-s] occurs:
    the two combine, and neither their order nor their repetition nor
    any other option changes the result. *)
Theorem parsed_open_flags (os : list opt) (g : globals) :
  parse_opts os globals_init = inl g ->
  g_oflags g = flags_of os.
Proof.
  intros Hp. rewrite (parse_opts_flags os _ _ Hp). cbn [g_oflags globals_init].
  apply Z.lor_0_l.
Qed.

Lemma parsed_open_flags_witness :
  exists g, parse_opts [Opt_s; Opt_b "512"; Opt_d; Opt_s] globals_init = inl g
            /\ g_oflags g = Z.lor O_DIRECT O_SYNC.
Proof.
  destruct (parse_opts [Opt_s; Opt_b "512"; Opt_d; Opt_s] globals_init)
    as [g |] eqn:E; [| discriminate].
  exists g. split; [reflexivity |].
  apply (parsed_open_flags [Opt_s; Opt_b "512"; Opt_d; Opt_s] g E).
Defined.

(** * Transfers that come back short, again *)

(** As long as nothing stops it, the loop goes through [n] more
    iterations and counts one operation in each: no return value that
    is not negative ends it, however short the transfer. *)
Lemma loop_goes_on bs bc bm e n :
  forall k w s tr,
    Z.of_nat (k + n) < UINT_MOD ->
    bm = 0 \/ Z.of_nat (k + n) < bm ->
    (forall j, (k <= j < k + n)%nat -> term_at e j = 0) ->
    (forall j off, (k <= j < k + n)%nat ->
       0 <= to_int (sys_pwrite e j off) /\ 0 <= to_int (sys_pread e j off)) ->
    posfn_ok bc s -> workfn s <> wf_null -> ioc s = Z.of_nat k ->
    exists w' s' tr',
      worker_loop bs bc bm e n k w s tr = StillLooping w' s' tr'
      /\ ioc s' = Z.of_nat (k + n)
      /\ io_count tr' = (io_count tr + n)%nat
      /\ bad_ios tr' = bad_ios tr.
Proof.
  induction n as [| n IH]; intros k w s tr Hsmall Hlim Hterm Hio Hp Hw Hioc.
  - exists w, s, tr. rewrite !Nat.add_0_r. auto.
  - cbn [worker_loop]. rewrite (Hterm k) by lia. cbn [Z.eqb negb].
    destruct (call_posfn_ok bc w s Hp) as (b & w1 & s1 & Hc & Hp1 & Hw1 & Hi1 & _).
    rewrite Hc.
    assert (Hw1' : workfn s1 <> wf_null) by (rewrite Hw1; exact Hw).
    destruct (call_workfn_cases bs e k s1 b Hw1') as (wr & r & -> & Hr).
    assert (Hr0 : 0 <= r)
      by (destruct Hr as [-> | ->]; apply (Hio k); lia).
    destruct (r <? 0) eqn:Er; [apply Z.ltb_lt in Er; lia |].
    assert (Hev : io_count (snd (incc w1)) = 0%nat /\ bad_ios (snd (incc w1)) = 0%nat)
      by (destruct (incc_spec w1) as (_ & _ & _ & [-> | ->]); split; reflexivity).
    destruct (incc w1) as [w2 ev]. cbn [snd] in Hev.
    destruct Hev as [Hev1 Hev2].
    cbn [ioc set_ioc]. rewrite Hi1, Hioc.
    rewrite u32_small by (unfold is_u32; lia).
    assert (Hnl : negb (bm =? 0) && (bm <=? Z.of_nat k + 1) = false).
    { destruct Hlim as [-> | Hlt]; [reflexivity |].
      apply andb_false_intro2. apply Z.leb_gt. lia. }
    rewrite Hnl.
    destruct (IH (S k) w2 (set_ioc (Z.of_nat k + 1) s1) ((tr ++ [EvIO wr b r]) ++ ev))
      as (w' & s' & tr' & Hloop & Hi' & Hc' & Hb').
    + replace (S k + n)%nat with (k + S n)%nat by lia. exact Hsmall.
    + replace (S k + n)%nat with (k + S n)%nat by lia. exact Hlim.
    + intros j Hj. apply Hterm. lia.
    + intros j off Hj. apply Hio. lia.
    + unfold posfn_ok in *. cbn [posfn set_ioc]. rewrite Hp1. exact Hp.
    + exact Hw1'.
    + cbn [ioc set_ioc]. lia.
    + exists w', s', tr'. split; [exact Hloop |].
      replace (k + S n)%nat with (S k + n)%nat by lia.
      split; [exact Hi' |]. split.
      * rewrite Hc', !io_count_app, Hev1. cbn. lia.
      * rewrite Hb', !bad_ios_app, Hev2. cbn. rewrite Er. lia.
Qed.

(** C2, as the code has it.  Take a thread whose [open] succeeded,
    whose counter starts at zero and whose generator returns blocks (a
    linear class, or a block count that is not zero), and let the stop
    flag stay clear and the limit unreached through iteration [k0].  If
    the first [k0] transfers return byte counts that are not negative,
    however short of the block size, the thread counts each of them as a
    completed operation and is still in its loop after them.  If the
    next transfer then returns a negative value, the thread logs it with
    [perror] and stops, having issued that transfer once. *)
Theorem short_transfer_goes_on_negative_stops (bs bc bm oflags : Z) (e : env)
    (k0 : nat) (w : world) (s : state) :
  Z.of_nat k0 < UINT_MOD -> bm = 0 \/ Z.of_nat k0 < bm ->
  (forall j, (j <= k0)%nat -> term_at e j = 0) ->
  (forall j off, (j < k0)%nat ->
     0 <= to_int (sys_pwrite e j off) /\ 0 <= to_int (sys_pread e j off)) ->
  0 <= sys_open e (open_flags oflags s) ->
  Z.land (opi s) MFrnd = 0 \/ bc <> 0 ->
  ioc s = 0 ->
  (exists w' s' tr,
     worker bs bc bm oflags e k0 w s = (ThreadLooping, w', s', tr)
     /\ ioc s' = Z.of_nat k0
     /\ io_count tr = k0
     /\ ok_ios tr = k0)
  /\ ((forall off, to_int (sys_pwrite e k0 off) < 0
                   /\ to_int (sys_pread e k0 off) < 0) ->
      forall fuel, (k0 < fuel)%nat ->
      exists w' s' tr0 wr b r,
        worker bs bc bm oflags e fuel w s =
        (ThreadReturned, w', s',
         tr0 ++ [EvIO wr b r; EvPerror (opi s);
                 EvLock; EvUpdate Grunning; EvUnlock; EvBroadcast])
        /\ r < 0
        /\ ioc s' = Z.of_nat k0
        /\ io_count tr0 = k0).
Proof.
  intros Hk0 Hlim Hterm Hio Hopen Hpos Hioc.
  destruct (worker_state_ok bc oflags e s Hpos) as (Hp & Hw & Hi & Ho).
  split.
  - destruct (loop_goes_on bs bc bm e k0 0%nat w (worker_state oflags e s) [])
      as (w1 & s1 & tr & Hloop & Hi1 & Hc1 & Hb1); try assumption.
    + intros j Hj. apply Hterm. lia.
    + intros j off Hj. apply Hio. lia.
    + destruct (worker_split bs bc bm oflags e k0 w s) as [[Hneg _] | [_ Heq]]; [lia |].
      rewrite Hloop in Heq. exists w1, s1, tr.
      split; [exact Heq |]. split; [exact Hi1 |]. split; [exact Hc1 |].
      pose proof (io_count_split tr) as Hsplit. cbn in Hb1, Hc1. lia.
  - intros Hfail fuel Hfuel.
    destruct (loop_stops_on_error bs bc bm e k0 Hk0 Hlim fuel w
                (worker_state oflags e s) Hterm Hio Hfail Hp Hw)
      as (w1 & s1 & tr0 & wr & b & r & Hloop & Hr & Hi1 & Hc1);
      [congruence | exact Hfuel |].
    rewrite Ho in Hloop.
    destruct (worker_split bs bc bm oflags e fuel w s) as [[Hneg _] | [_ Heq]]; [lia |].
    rewrite Hloop in Heq. rewrite Heq.
    exists (fst (decnr w1)), s1, tr0, wr, b, r.
    split; [rewrite <- app_assoc; reflexivity |]. auto.
Qed.

Lemma short_transfer_goes_on_negative_stops_witness :
  (exists w' s' tr,
     worker 8192 128 0 0
       (mkEnv (fun _ => 3) (fun k _ => if (k <? 2)%nat then 100 else -1)
              (fun k _ => if (k <? 2)%nat then 100 else -1) (fun _ => 0))
       2 (mkWorld 0 1 0) state_zero = (ThreadLooping, w', s', tr)
     /\ ioc s' = 2 /\ io_count tr = 2%nat /\ ok_ios tr = 2%nat)
  /\ (exists w' s' tr0 wr b r,
        worker 8192 128 0 0
          (mkEnv (fun _ => 3) (fun k _ => if (k <? 2)%nat then 100 else -1)
                 (fun k _ => if (k <? 2)%nat then 100 else -1) (fun _ => 0))
          9 (mkWorld 0 1 0) state_zero =
        (ThreadReturned, w', s',
         tr0 ++ [EvIO wr b r; EvPerror (opi state_zero);
                 EvLock; EvUpdate Grunning; EvUnlock; EvBroadcast])
        /\ r < 0 /\ ioc s' = 2 /\ io_count tr0 = 2%nat).
Proof.
  destruct (short_transfer_goes_on_negative_stops 8192 128 0 0
              (mkEnv (fun _ => 3) (fun k _ => if (k <? 2)%nat then 100 else -1)
                     (fun k _ => if (k <? 2)%nat then 100 else -1) (fun _ => 0))
              2 (mkWorld 0 1 0) state_zero) as [H1 H2].
  - unfold UINT_MOD. lia.
  - left. reflexivity.
  - intros j _. reflexivity.
  - intros j off Hj. apply Nat.ltb_lt in Hj. cbn [sys_pwrite sys_pread].
    rewrite Hj. rewrite to_int_small; lia.
  - cbn. lia.
  - left. reflexivity.
  - reflexivity.
  - split; [exact H1 |].
    apply H2; [| lia].
    intros off. cbn. rewrite to_int_neg; lia.
Defined.

(** * Numerals out of range *)

(** A numeral too large for a [long] is read as [LONG_MAX], which is -1
    as an [int] and 2^32 - 1 once stored in an [unsigned]. *)
Lemma atoi_saturates :
  atoi "99999999999999999999" = -1
  /\ thread_count (Some "99999999999999999999"%string) = 4294967295
  /\ atoi " -12x" = -12.
Proof. vm_compute. repeat split. Qed.
